(** * TeleInflux: the Teleinfo frame reader, checked against its specification

    A shallow embedding of [teleinflux/teleinfo.py] (classes [TeleinfoFrame]
    and [TeleinfoReader]) and of the reading loop of [Teleinflux.run] in
    [teleinflux/__init__.py].

    Python values are modelled as follows.
    - [bytes] is a list of [byte]; [int(b)] of a byte is [Byte.to_N].
    - [str] is a list of Unicode code points.
    - A [dict] is an association list in insertion order with unique keys.
    - A call that may raise returns a [pyres]: [Ok v] or [Raise e].
    - The open file or serial port is the list of bytes it still delivers;
      [read(1)] takes the first one, and returns the empty chunk when none
      is left.
    The capture timestamp of a [TeleinfoFrame] ([datetime.utcnow()]) is a
    wall-clock reading and is left out of the record; the loop takes it
    from a parameter.  Of [Teleinflux] the reading loop of [run] and
    [_write_measurement] are embedded: the configuration, the logging, the
    pauses and the connection to the database are outside, and what the
    InfluxDB client does at each call is a parameter.  The loop is followed
    with no stop signal received. *)

From Stdlib Require Import List NArith ZArith Bool Lia.
From Stdlib.Strings Require Import String Byte.
Import ListNotations.

Set Implicit Arguments.

(** ** Python values and exceptions *)

Definition bytes := list byte.
Definition str := list N.

(** A [bytes] literal and an ASCII [str] literal. *)
Definition b_ (s : string) : bytes := list_byte_of_string s.
Definition s_ (s : string) : str := map Byte.to_N (list_byte_of_string s).

Definition CR : byte := x0d.
Definition LF : byte := x0a.
Definition SP : byte := x20.

(** The exceptions the embedded code can raise.  [TeleinfoException] is the
    only class of this repository; its message interpolates the line, both
    checksum values and the frame data, which the constructor keeps as
    arguments.  [UnicodeDecodeError] is a subclass of [ValueError] in Python;
    neither is a subclass of [TeleinfoException]. *)
Inductive exn : Type :=
| ValueError
| UnicodeDecodeError
| IndexError
| AttributeError
| TeleinfoException (line : bytes) (_sum : N) (found : N) (frame_data : bytes).

Inductive pyres (A : Type) : Type :=
| Ok (a : A)
| Raise (e : exn).
Arguments Raise {A} e.

Definition bind {A B : Type} (m : pyres A) (k : A -> pyres B) : pyres B :=
  match m with
  | Ok a => k a
  | Raise e => Raise e
  end.

Notation "x <- m ;; k" := (bind m (fun x => k))
  (at level 61, m at next level, right associativity).

(** [isinstance(e, TeleinfoException)], the test of an [except] clause. *)
Definition is_TeleinfoException (e : exn) : bool :=
  match e with
  | TeleinfoException _ _ _ _ => true
  | _ => false
  end.

(** ** Builtins on sequences *)

Section Strip.
Variable A : Type.
Variable drop : A -> bool.

Fixpoint lstrip_with (s : list A) : list A :=
  match s with
  | [] => []
  | c :: r => if drop c then lstrip_with r else s
  end.

Definition rstrip_with (s : list A) : list A := rev (lstrip_with (rev s)).
End Strip.

(** ASCII whitespace of [bytes.strip()]: space, tab, newline, return,
    vertical tab and form feed. *)
Definition bytes_isspace (c : byte) : bool :=
  let n := Byte.to_N c in
  ((9 <=? n) && (n <=? 13) || (n =? 32))%N.

Definition bytes_strip (s : bytes) : bytes :=
  rstrip_with bytes_isspace (lstrip_with bytes_isspace s).

(** [s.startswith(sep)], returning the rest of [s] after [sep]. *)
Fixpoint strip_prefix (sep s : bytes) : option bytes :=
  match sep, s with
  | [], _ => Some s
  | _ :: _, [] => None
  | x :: sep', y :: s' => if Byte.eqb x y then strip_prefix sep' s' else None
  end.

(** The first occurrence of [sep] in [s]: what is before and what is after. *)
Fixpoint bytes_find (sep s : bytes) {struct s} : option (bytes * bytes) :=
  match strip_prefix sep s with
  | Some after => Some ([], after)
  | None =>
      match s with
      | [] => None
      | c :: r =>
          match bytes_find sep r with
          | Some (before, after) => Some (c :: before, after)
          | None => None
          end
      end
  end.

(** [s.split(sep, maxsplit)] for a non-empty separator: at most [maxsplit]
    cuts, left to right. *)
Fixpoint bytes_split_n (sep : bytes) (maxsplit : nat) (s : bytes) : list bytes :=
  match maxsplit with
  | O => [s]
  | S m =>
      match bytes_find sep s with
      | None => [s]
      | Some (before, after) => before :: bytes_split_n sep m after
      end
  end.

(** [s.split(sep)]: no limit on the cuts; [s] has room for at most
    [length s] separators. *)
Definition bytes_split (sep s : bytes) : list bytes :=
  bytes_split_n sep (List.length s) s.

(** [s[0:-2]]: all but the last two elements, empty when there are fewer. *)
Definition slice_0_m2 (s : bytes) : bytes := firstn (List.length s - 2) s.

(** [sum(...)]: starts from 0 and adds from the left. *)
Definition py_sum (l : list N) : N := fold_left N.add l 0%N.

(** [s[0]] on bytes: the integer value of the first byte. *)
Definition bytes_index0 (s : bytes) : pyres N :=
  match s with
  | [] => Raise IndexError
  | c :: _ => Ok (Byte.to_N c)
  end.

(** Unpacking [a, b, c = toks]: exactly three values are required. *)
Definition unpack3 (toks : list bytes) : pyres (bytes * bytes * bytes) :=
  match toks with
  | [a; b; c] => Ok (a, b, c)
  | _ => Raise ValueError
  end.

(** ** [bytes.decode()]: strict UTF-8 *)

Definition in_range (lo hi : N) (c : byte) : bool :=
  ((lo <=? Byte.to_N c) && (Byte.to_N c <=? hi))%N.

(** The six payload bits of a continuation byte. *)
Definition cont_bits (c : byte) : N := (Byte.to_N c - 0x80)%N.

(** The allowed range of the second byte after lead byte [n0]: it excludes
    overlong forms, surrogates and code points above U+10FFFF. *)
Definition second_range (n0 : N) : N * N :=
  (if n0 =? 0xE0 then (0xA0, 0xBF)
   else if n0 =? 0xED then (0x80, 0x9F)
   else if n0 =? 0xF0 then (0x90, 0xBF)
   else if n0 =? 0xF4 then (0x80, 0x8F)
   else (0x80, 0xBF))%N.

Fixpoint utf8_decode (s : bytes) : option str :=
  match s with
  | [] => Some []
  | c0 :: r =>
      let n0 := Byte.to_N c0 in
      let '(lo, hi) := second_range n0 in
      if (n0 <? 0x80)%N then
        option_map (cons n0) (utf8_decode r)
      else if in_range 0xC2 0xDF c0 then
        match r with
        | c1 :: r1 =>
            if in_range lo hi c1 then
              option_map (cons ((n0 - 0xC0) * 64 + cont_bits c1)%N)
                         (utf8_decode r1)
            else None
        | _ => None
        end
      else if in_range 0xE0 0xEF c0 then
        match r with
        | c1 :: c2 :: r2 =>
            if in_range lo hi c1 && in_range 0x80 0xBF c2 then
              option_map
                (cons ((n0 - 0xE0) * 4096 + cont_bits c1 * 64 + cont_bits c2)%N)
                (utf8_decode r2)
            else None
        | _ => None
        end
      else if in_range 0xF0 0xF4 c0 then
        match r with
        | c1 :: c2 :: c3 :: r3 =>
            if in_range lo hi c1 && in_range 0x80 0xBF c2
               && in_range 0x80 0xBF c3 then
              option_map
                (cons ((n0 - 0xF0) * 262144 + cont_bits c1 * 4096
                       + cont_bits c2 * 64 + cont_bits c3)%N)
                (utf8_decode r3)
            else None
        | _ => None
        end
      else None
  end.

Definition bytes_decode (s : bytes) : pyres str :=
  match utf8_decode s with
  | Some t => Ok t
  | None => Raise UnicodeDecodeError
  end.

(** ** [dict]: an association list in insertion order *)

Fixpoint str_eqb (a b : str) : bool :=
  match a, b with
  | [], [] => true
  | x :: a', y :: b' => (x =? y)%N && str_eqb a' b'
  | _, _ => false
  end.

Section Dict.
Variable V : Type.

Definition dict := list (str * V).

(** [d.get(k)], [None] for a missing key. *)
Fixpoint dict_get (d : dict) (k : str) : option V :=
  match d with
  | [] => None
  | (k', v') :: r => if str_eqb k k' then Some v' else dict_get r k
  end.

(** [d[k] = v]: an existing key keeps its place and takes the new value,
    a new key goes to the end. *)
Fixpoint dict_set (d : dict) (k : str) (v : V) : dict :=
  match d with
  | [] => [(k, v)]
  | (k', v') :: r =>
      if str_eqb k k' then (k', v) :: r else (k', v') :: dict_set r k v
  end.

Definition dict_keys (d : dict) : list str := map fst d.
End Dict.

(** [d.get(k, default)]. *)
Definition dict_get_default {V : Type} (d : dict V) (k : str) (default : V) : V :=
  match dict_get d k with
  | Some v => v
  | None => default
  end.

(** ** [int(text)] in base 10

    The interpreter first brings the text to ASCII: text that is already
    ASCII is taken as it is; otherwise every non-ASCII white space becomes a
    space and every non-ASCII decimal digit its ASCII digit, and any other
    non-ASCII character makes the literal invalid.  It then reads optional
    white space, an optional sign, digits with single underscores between
    them, and optional white space, up to the end of the text.

    The Unicode tables and the configured limit on the number of digits
    belong to the interpreter; they are the variables of this section. *)

Section PyInt.
(** [str.isspace] and the decimal value of a character, consulted for
    code points from 127 on. *)
Variable unicode_isspace : N -> bool.
Variable unicode_todecimal : N -> option N.
(** [sys.get_int_max_str_digits()]: [None] when there is no limit,
    [Some k] for the limit [640 + k] (the interpreter refuses a limit
    below 640). *)
Variable int_max_str_digits : option nat.

Definition is_ascii (t : str) : bool := forallb (fun c => c <? 128)%N t.

Definition to_ascii_char (c : N) : option N :=
  if (c <? 127)%N then Some c
  else if unicode_isspace c then Some 32%N
  else option_map (N.add 48) (unicode_todecimal c).

Fixpoint to_ascii_chars (t : str) : option str :=
  match t with
  | [] => Some []
  | c :: r =>
      match to_ascii_char c, to_ascii_chars r with
      | Some c', Some r' => Some (c' :: r')
      | _, _ => None
      end
  end.

Definition to_ascii (t : str) : option str :=
  if is_ascii t then Some t else to_ascii_chars t.

(** White space of the C locale: tab to carriage return, and space. *)
Definition c_isspace (c : N) : bool :=
  ((9 <=? c) && (c <=? 13) || (c =? 32))%N.

Definition is_digit (c : N) : bool := ((48 <=? c) && (c <=? 57))%N.

(** Digits with single underscores between them, after a first digit has
    been read: the value, the number of digits and the unread rest. *)
Fixpoint scan_digits (s : str) (acc : N) (digits : nat)
  : option (N * nat * str) :=
  match s with
  | [] => Some (acc, digits, [])
  | c :: r =>
      if is_digit c then scan_digits r (acc * 10 + (c - 48))%N (S digits)
      else if (c =? 95)%N then
        match r with
        | c' :: r' =>
            if is_digit c'
            then scan_digits r' (acc * 10 + (c' - 48))%N (S digits)
            else None
        | [] => None
        end
      else Some (acc, digits, s)
  end.

Definition over_limit (digits : nat) : bool :=
  match int_max_str_digits with
  | None => false
  | Some k => Nat.ltb (640 + k) digits
  end.

Definition int_unsigned (s : str) : option N :=
  match s with
  | c :: r =>
      if is_digit c then
        match scan_digits r (c - 48)%N 1 with
        | Some (n, digits, rest) =>
            if forallb c_isspace rest && negb (over_limit digits)
            then Some n else None
        | None => None
        end
      else None
  | [] => None
  end.

Definition int_signed (s : str) : option Z :=
  match s with
  | c :: r =>
      if (c =? 43)%N then option_map Z.of_N (int_unsigned r)
      else if (c =? 45)%N
      then option_map (fun n => (- Z.of_N n)%Z) (int_unsigned r)
      else option_map Z.of_N (int_unsigned s)
  | [] => None
  end.

Definition py_int (t : str) : pyres Z :=
  match to_ascii t with
  | Some s =>
      match int_signed (lstrip_with c_isspace s) with
      | Some z => Ok z
      | None => Raise ValueError
      end
  | None => Raise ValueError
  end.
End PyInt.

(** ** class [TeleinfoFrame] *)

Module TeleinfoFrame.

(** What a formatter can be handed by [get]: a raw value of the record,
    or the text fallback of [self._raw_data.get(key, '')]. *)
Inductive raw : Type :=
| RawBytes (v : bytes)
| RawStr (v : str).

(** [Union[str, int]], the result of a formatter. *)
Inductive field : Type :=
| FStr (s : str)
| FInt (z : Z).

(** An instance: [self._raw_data]. *)
Record t : Type := TeleinfoFrame { _raw_data : dict bytes }.

Definition _FIELD_FORMAT : dict str :=
  [ (s_ "ADCO", s_ "str");
    (s_ "OPTARIF", s_ "str");
    (s_ "ISOUSC", s_ "int");
    (s_ "HCHC", s_ "int");
    (s_ "HCHP", s_ "int");
    (s_ "PTEC", s_ "str");
    (s_ "IINST", s_ "int");
    (s_ "IMAX", s_ "int");
    (s_ "PAPP", s_ "int");
    (s_ "HHPHC", s_ "str");
    (s_ "MOTDETAT", s_ "str") ].

(** [value.decode()]: a [str] has no such method. *)
Definition decode (value : raw) : pyres str :=
  match value with
  | RawBytes v => bytes_decode v
  | RawStr _ => Raise AttributeError
  end.

(** [text.rstrip('.')]. *)
Definition rstrip_dot (text : str) : str :=
  rstrip_with (fun c => (c =? 46)%N) text.

Section Formatters.
Variable unicode_isspace : N -> bool.
Variable unicode_todecimal : N -> option N.
Variable int_max_str_digits : option nat.

Definition _format_str (value : raw) : pyres field :=
  text <- decode value ;;
  Ok (FStr (rstrip_dot text)).

Definition _format_int (value : raw) : pyres field :=
  text <- decode value ;;
  z <- py_int unicode_isspace unicode_todecimal int_max_str_digits text ;;
  Ok (FInt z).

(** [getattr(self, name)] for the names [get] can build. *)
Definition getattr (name : str) : pyres (raw -> pyres field) :=
  if str_eqb name (s_ "_format_str") then Ok _format_str
  else if str_eqb name (s_ "_format_int") then Ok _format_int
  else Raise AttributeError.

Definition get (self : t) (key : str) : pyres field :=
  let field_format := dict_get_default _FIELD_FORMAT key (s_ "str") in
  let field_formatter := s_ "_format_" ++ field_format in
  formatter <- getattr field_formatter ;;
  formatter (match dict_get (_raw_data self) key with
             | Some v => RawBytes v
             | None => RawStr []
             end).

(** The comprehension [{key: self.get(key) for key in keys}]. *)
Fixpoint format_keys (self : t) (keys : list str) (acc : dict field)
  : pyres (dict field) :=
  match keys with
  | [] => Ok acc
  | key :: keys' =>
      v <- get self key ;;
      format_keys self keys' (dict_set acc key v)
  end.

Definition format_fields (self : t) : pyres (dict field) :=
  format_keys self (dict_keys (_raw_data self)) [].
End Formatters.

End TeleinfoFrame.

(** ** class [TeleinfoReader] *)

Module TeleinfoReader.

(** [self._reader]: the bytes not yet read. *)
Definition reader := bytes.

(** [self._reader.read(n)]. *)
Definition read (n : nat) (rd : reader) : bytes * reader :=
  (firstn n rd, skipn n rd).

(** [(sum(int(b) for b in line[0:-2]) & 0x3F) + 0x20]. *)
Definition line_sum (line : bytes) : N :=
  (N.land (py_sum (map Byte.to_N (slice_0_m2 line))) 0x3F + 0x20)%N.

(** The body of the loop of [_parse_frame] for one line, up to the
    [raise]: the unpacking and the checksum control. *)
Definition check_line (frame_data line : bytes) : pyres (bytes * bytes) :=
  tokens <- unpack3 (bytes_split_n [SP] 2 line) ;;
  let '(label, value, checksum) := tokens in
  let _sum := line_sum line in
  found <- bytes_index0 checksum ;;
  if negb (_sum =? found)%N
  then Raise (TeleinfoException line _sum found frame_data)
  else Ok (label, value).

(** The whole body: the key [label.decode()] and the value to store. *)
Definition parse_line (frame_data line : bytes) : pyres (str * bytes) :=
  lv <- check_line frame_data line ;;
  key <- bytes_decode (fst lv) ;;
  Ok (key, snd lv).

Fixpoint parse_lines (frame_data : bytes) (lines : list bytes)
  (parsed_frame : dict bytes) : pyres (dict bytes) :=
  match lines with
  | [] => Ok parsed_frame
  | line :: lines' =>
      kv <- parse_line frame_data line ;;
      parse_lines frame_data lines' (dict_set parsed_frame (fst kv) (snd kv))
  end.

Definition frame_lines (frame_data : bytes) : list bytes :=
  bytes_split [CR; LF] (bytes_strip frame_data).

Definition _parse_frame (frame_data : bytes) : pyres TeleinfoFrame.t :=
  parsed_frame <- parse_lines frame_data (frame_lines frame_data) [] ;;
  Ok (TeleinfoFrame.TeleinfoFrame parsed_frame).

(** How the loop over one chunk ends: with the [return] of [read_frame],
    or with the next values of the two local variables. *)
Inductive chunk_end : Type :=
| Return (r : pyres TeleinfoFrame.t)
| Next (started : bool) (frame_buffer : bytes).

Fixpoint for_chunk (chunk_data : bytes) (started : bool)
  (frame_buffer : bytes) : chunk_end :=
  match chunk_data with
  | [] => Next started frame_buffer
  | b :: chunk' =>
      if started then
        if (Byte.to_N b =? 3)%N
        then Return (_parse_frame frame_buffer)
        else for_chunk chunk' started (frame_buffer ++ [b])
      else if (Byte.to_N b =? 2)%N
      then for_chunk chunk' true frame_buffer
      else for_chunk chunk' started frame_buffer
  end.

(** A returned frame, as a value of [Optional[TeleinfoFrame]]. *)
Definition some_frame (r : pyres TeleinfoFrame.t)
  : pyres (option TeleinfoFrame.t) :=
  frame <- r ;; Ok (Some frame).

(** The [while True] loop.  Each turn reads one byte; an empty read
    returns [None]. *)
Fixpoint while_true (rd : reader) (started : bool) (frame_buffer : bytes)
  : pyres (option TeleinfoFrame.t) * reader :=
  match rd with
  | [] => (Ok None, [])
  | b :: rd' =>
      match for_chunk [b] started frame_buffer with
      | Return r => (some_frame r, rd')
      | Next started' frame_buffer' => while_true rd' started' frame_buffer'
      end
  end.

Definition read_frame (rd : reader)
  : pyres (option TeleinfoFrame.t) * reader :=
  while_true rd false [].

End TeleinfoReader.

(** ** [Teleinflux._write_measurement]

    The InfluxDB client is outside the repository: what its [write_points]
    does at its [k]-th call, with the points it is handed, is the variable
    of this section.  [time.sleep] and the log messages are left out. *)

(** The dictionary built for one attempt; [tags] is [None] when the key is
    not set. *)
Record measurement_data : Type := MeasurementData {
  measurement : str;
  time : str;
  fields : dict TeleinfoFrame.field;
  tags : option (dict TeleinfoFrame.field)
}.

(** A call of [write_points]: it returns a value that is true or false, or
    raises [InfluxDBServerError], or raises something else. *)
Inductive write_outcome : Type :=
| Wrote (ok : bool)
| ServerError
| OtherError.

(** How [_write_measurement] ends: it returns, or the exception of the
    client leaves it. *)
Inductive write_end : Type :=
| Returned (ok : bool)
| Propagated.

Section WriteMeasurement.
Variable write_points : nat -> list measurement_data -> write_outcome.

(** [if tags: measurement_data['tags'] = tags]: [None] and the empty
    dictionary are false. *)
Definition build_measurement (measurement_name utc_time : str)
  (fields : dict TeleinfoFrame.field)
  (tags : option (dict TeleinfoFrame.field)) : measurement_data :=
  MeasurementData measurement_name utc_time fields
    (match tags with
     | Some (_ :: _) => tags
     | _ => None
     end).

(** The [for] over [range(attempts)], from the [k]-th call of the client
    on: how it ends, and the number of the client's next call. *)
Fixpoint attempts_loop (remaining k : nat) (measurement_name utc_time : str)
  (fields : dict TeleinfoFrame.field)
  (tags : option (dict TeleinfoFrame.field)) : write_end * nat :=
  match remaining with
  | O => (Returned false, k)
  | S remaining' =>
      match write_points k
              [build_measurement measurement_name utc_time fields tags] with
      | Wrote true => (Returned true, S k)
      | OtherError => (Propagated, S k)
      | Wrote false | ServerError =>
          attempts_loop remaining' (S k) measurement_name utc_time fields tags
      end
  end.

(** [range(n)] is empty for [n <= 0]. *)
Definition _write_measurement (_influx_write_attemps : Z) (k : nat)
  (measurement_name utc_time : str) (fields : dict TeleinfoFrame.field)
  (tags : option (dict TeleinfoFrame.field)) : write_end * nat :=
  attempts_loop (Z.to_nat _influx_write_attemps) k measurement_name utc_time
                fields tags.
End WriteMeasurement.

(** ** The reading loop of [Teleinflux.run]

    The loop reads a frame, formats it and hands its fields to
    [_write_measurement].  The client and the number of attempts are those
    of [_write_measurement]; the clock is outside the program as well:
    [utc_time n] is the text [frame.utc_time.isoformat()] of the [n]-th
    frame the loop gets.  The connection to the database before the loop,
    [time.sleep] and the log messages are left out, and no stop signal is
    received. *)

Module Teleinflux.

Section Run.
Variable unicode_isspace : N -> bool.
Variable unicode_todecimal : N -> option N.
Variable int_max_str_digits : option nat.
Variable write_points : nat -> list measurement_data -> write_outcome.
Variable _influx_write_attemps : Z.
Variable utc_time : nat -> str.

Let format_fields :=
  TeleinfoFrame.format_fields unicode_isspace unicode_todecimal
                              int_max_str_digits.

(** How one turn of [while self._running] ends. *)
Inductive turn : Type :=
| Continue                                   (* the [except] clause *)
| Break                                      (* [if not frame] *)
| Written (fields : dict TeleinfoFrame.field)
    (* [_write_measurement] returned *)
| Escapes (e : exn)
    (* an exception of the reader or of the formatting leaves [run] *)
| WriteEscapes (fields : dict TeleinfoFrame.field)
    (* an exception of the client leaves [run] *).

(** One turn, for the [n]-th frame and from the [k]-th call of the client
    on; the result has the number of the client's next call.
    [except TeleinfoException] catches that class only.  A [TeleinfoFrame]
    is always true in [if not frame].  The frame is formatted for the debug
    message and again for the measurement.  [_write_measurement] is called
    outside the [try], its result is not looked at, and an exception it
    lets through leaves [run]. *)
Definition run_turn (rd : TeleinfoReader.reader) (n k : nat)
  : turn * TeleinfoReader.reader * nat :=
  let '(r, rd') := TeleinfoReader.read_frame rd in
  match r with
  | Raise e =>
      if is_TeleinfoException e then (Continue, rd', k)
      else (Escapes e, rd', k)
  | Ok None => (Break, rd', k)
  | Ok (Some frame) =>
      match (_ <- format_fields frame ;; format_fields frame) with
      | Ok fields =>
          match _write_measurement write_points _influx_write_attemps k
                  (s_ "teleinfo") (utc_time n) fields None with
          | (Returned _, k') => (Written fields, rd', k')
          | (Propagated, k') => (WriteEscapes fields, rd', k')
          end
      | Raise e => (Escapes e, rd', k)
      end
  end.

(** How [run] ends: it reaches ['Done'], or an exception of the reader or
    of the formatting leaves it, or an exception of the client does. *)
Inductive ending : Type :=
| Done
| Uncaught (e : exn)
| ClientError.

(** The loop, from the [n]-th frame and the [k]-th call of the client on:
    the fields handed to [_write_measurement], in order, and how the loop
    ends ([None] when [fuel] turns were not enough). *)
Fixpoint run_loop (fuel : nat) (rd : TeleinfoReader.reader) (n k : nat)
  : list (dict TeleinfoFrame.field) * option ending :=
  match fuel with
  | O => ([], None)
  | S fuel' =>
      match run_turn rd n k with
      | (Continue, rd', k') => run_loop fuel' rd' n k'
      | (Break, _, _) => ([], Some Done)
      | (Written fields, rd', k') =>
          let '(ws, e) := run_loop fuel' rd' (S n) k' in (fields :: ws, e)
      | (Escapes e, _, _) => ([], Some (Uncaught e))
      | (WriteEscapes fields, _, _) => ([fields], Some ClientError)
      end
  end.

(** Every turn but the last reads at least one byte, so
    [S (length rd)] turns are enough. *)
Definition run (rd : TeleinfoReader.reader)
  : list (dict TeleinfoFrame.field) * option ending :=
  run_loop (S (List.length rd)) rd 0 0.
End Run.

End Teleinflux.

(** ** An interpreter instance: the tables of Unicode 14.0

    [str.isspace] over all code points, and the decimal digits: every run of
    ten digits is given by the code point of its zero. *)

Definition unicode14_isspace (c : N) : bool :=
  ((9 <=? c) && (c <=? 13) || (0x1C <=? c) && (c <=? 0x20)
   || (0x2000 <=? c) && (c <=? 0x200A)
   || existsb (N.eqb c)
        [0x85; 0xA0; 0x1680; 0x2028; 0x2029; 0x202F; 0x205F; 0x3000])%N.

Definition unicode14_zeros : list N :=
  [ 0x30; 0x660; 0x6F0; 0x7C0; 0x966; 0x9E6; 0xA66; 0xAE6; 0xB66; 0xBE6;
    0xC66; 0xCE6; 0xD66; 0xDE6; 0xE50; 0xED0; 0xF20; 0x1040; 0x1090; 0x17E0;
    0x1810; 0x1946; 0x19D0; 0x1A80; 0x1A90; 0x1B50; 0x1BB0; 0x1C40; 0x1C50;
    0xA620; 0xA8D0; 0xA900; 0xA9D0; 0xA9F0; 0xAA50; 0xABF0; 0xFF10; 0x104A0;
    0x10D30; 0x11066; 0x110F0; 0x11136; 0x111D0; 0x112F0; 0x11450; 0x114D0;
    0x11650; 0x116C0; 0x11730; 0x118E0; 0x11950; 0x11C50; 0x11D50; 0x11DA0;
    0x16A60; 0x16AC0; 0x16B50; 0x1D7CE; 0x1D7D8; 0x1D7E2; 0x1D7EC; 0x1D7F6;
    0x1E140; 0x1E2F0; 0x1E950; 0x1FBF0 ]%N.

Definition unicode14_todecimal (c : N) : option N :=
  match find (fun z => (z <=? c) && (c <? z + 10))%N unicode14_zeros with
  | Some z => Some (c - z)%N
  | None => None
  end.

(** The default limit on the digits of [int]: 4300. *)
Definition default_max_str_digits : option nat := Some 3660.

(** ** Vocabulary of the specification *)

(** A byte other than the start marker, and other than the end marker. *)
Definition not_start (b : byte) : Prop := b <> x02.
Definition not_end (b : byte) : Prop := b <> x03.

(** The two lines of the scenario of the specification, with the checksum
    bytes its algorithm gives (["E"] and a double quote). *)
Definition line_ADCO : bytes := b_ "ADCO 012345678901 E".
Definition line_HCHC : bytes := b_ "HCHC 001234567 " ++ [x22].
Definition scenario_payload : bytes := line_ADCO ++ [CR; LF] ++ line_HCHC.

(** A line that splits into fewer than three space-delimited tokens. *)
Definition short_line (line : bytes) : Prop :=
  List.length (bytes_split_n [SP] 2 line) < 3.

(** A line that goes through the whole loop body of [_parse_frame]. *)
Definition line_ok (frame_data line : bytes) : Prop :=
  exists kv, TeleinfoReader.parse_line frame_data line = Ok kv.

(** The checksum in the words of the specification: the sum of the values
    of all bytes of the line except the final two, masked with 0x3F, plus
    0x20. *)
Definition sum_but_last_two (line : bytes) : N :=
  fold_right N.add 0%N (map Byte.to_N (removelast (removelast line))).

Definition spec_checksum (line : bytes) : N :=
  (N.land (sum_but_last_two line) 0x3F + 0x20)%N.

(** The key and value a line stands for, when it has three tokens and a
    label that decodes; and the value of the last line of [lines] that
    stands for [key]. *)
Definition line_binding (line : bytes) : option (str * bytes) :=
  match bytes_split_n [SP] 2 line with
  | [label; value; _] =>
      match utf8_decode label with
      | Some key => Some (key, value)
      | None => None
      end
  | _ => None
  end.

Fixpoint last_value (key : str) (lines : list bytes) : option bytes :=
  match lines with
  | [] => None
  | line :: lines' =>
      match last_value key lines' with
      | Some v => Some v
      | None =>
          match line_binding line with
          | Some (k, v) => if str_eqb key k then Some v else None
          | None => None
          end
      end
  end.

(** The type table in the words of the specification: a tag per known
    label, [String_tag] for any other label. *)
Inductive type_tag : Type :=
| String_tag
| Integer_tag.

Definition FieldTypeTable : dict type_tag :=
  [ (s_ "ADCO", String_tag);
    (s_ "OPTARIF", String_tag);
    (s_ "ISOUSC", Integer_tag);
    (s_ "HCHC", Integer_tag);
    (s_ "HCHP", Integer_tag);
    (s_ "PTEC", String_tag);
    (s_ "IINST", Integer_tag);
    (s_ "IMAX", Integer_tag);
    (s_ "PAPP", Integer_tag);
    (s_ "HHPHC", String_tag);
    (s_ "MOTDETAT", String_tag) ].

Definition field_type (label : str) : type_tag :=
  dict_get_default FieldTypeTable label String_tag.

(** The number that a list of decimal digits writes in base 10. *)
Definition decimal_value (digits : list N) : N :=
  fold_left (fun acc d => acc * 10 + d)%N digits 0%N.

(** The text of a list of decimal digits. *)
Definition digits_text (digits : list N) : str := map (N.add 48) digits.

(** The coercion of a tag: the formatter of [TeleinfoFrame] for it. *)
Definition formatter_of (sp : N -> bool) (dec : N -> option N)
  (lim : option nat) (tag : type_tag)
  : TeleinfoFrame.raw -> pyres TeleinfoFrame.field :=
  match tag with
  | String_tag => TeleinfoFrame._format_str
  | Integer_tag => TeleinfoFrame._format_int sp dec lim
  end.

(** ** [str.encode()]: UTF-8

    A [str] can hold a lone surrogate, which has no encoding:
    [UnicodeEncodeError], here [None]. *)

Definition byte_of_N (n : N) : byte :=
  match Byte.of_N n with
  | Some b => b
  | None => x00
  end.

Definition utf8_encode_char (c : N) : option bytes :=
  (if c <? 0x80 then Some [byte_of_N c]
   else if c <? 0x800 then
     Some [byte_of_N (0xC0 + c / 64); byte_of_N (0x80 + c mod 64)]
   else if c <? 0x10000 then
     if (0xD800 <=? c) && (c <=? 0xDFFF) then None
     else Some [byte_of_N (0xE0 + c / 4096);
                byte_of_N (0x80 + (c / 64) mod 64);
                byte_of_N (0x80 + c mod 64)]
   else if c <? 0x110000 then
     Some [byte_of_N (0xF0 + c / 262144);
           byte_of_N (0x80 + (c / 4096) mod 64);
           byte_of_N (0x80 + (c / 64) mod 64);
           byte_of_N (0x80 + c mod 64)]
   else None)%N.

Fixpoint utf8_encode (t : str) : option bytes :=
  match t with
  | [] => Some []
  | c :: r =>
      match utf8_encode_char c, utf8_encode r with
      | Some bs, Some rs => Some (bs ++ rs)
      | _, _ => None
      end
  end.

(** ** [str(n)] of an integer

    The decimal digits, most significant first, with a minus sign for a
    negative number.  [fuel] bounds the number of digits; the number of
    binary digits is enough. *)

Fixpoint digits_fuel (fuel : nat) (n : N) (acc : list N) : list N :=
  match fuel with
  | O => acc
  | S fuel' =>
      if (n <? 10)%N then n :: acc
      else digits_fuel fuel' (n / 10)%N ((n mod 10)%N :: acc)
  end.

Definition decimal_digits (n : N) : list N :=
  digits_fuel (S (N.to_nat (N.log2 n))) n [].

(** [None] is the [ValueError] of a number with more digits than the limit
    of the interpreter. *)
Definition str_of_int (int_max_str_digits : option nat) (z : Z)
  : option str :=
  let digits := decimal_digits (Z.abs_N z) in
  if over_limit int_max_str_digits (List.length digits) then None
  else Some ((if (z <? 0)%Z then [45%N] else []) ++ map (N.add 48) digits).

(** ** [TeleinfoFrame.set]

    [self._raw_data[key] = str(value).encode()].  The parameter is
    annotated [Any]; the values modelled are a [str], an [int] and a
    [bool].  A [bool] is an [int] to [isinstance], but its text is [True]
    or [False] and not a number. *)

Inductive Any : Type :=
| AStr (s : str)
| AInt (z : Z)
| ABool (b : bool).

Inductive set_outcome : Type :=
| Stored (self : TeleinfoFrame.t)
| SetValueError            (* [str(value)]: too many digits *)
| SetUnicodeEncodeError.   (* [.encode()]: a lone surrogate *)

(** [str(value)]; [None] is the [ValueError] of [str_of_int]. *)
Definition py_str (int_max_str_digits : option nat) (value : Any)
  : option str :=
  match value with
  | AStr s => Some s
  | AInt z => str_of_int int_max_str_digits z
  | ABool true => Some (s_ "True")
  | ABool false => Some (s_ "False")
  end.

Definition set (int_max_str_digits : option nat) (self : TeleinfoFrame.t)
  (key : str) (value : Any) : set_outcome :=
  match py_str int_max_str_digits value with
  | None => SetValueError
  | Some text =>
      match utf8_encode text with
      | None => SetUnicodeEncodeError
      | Some raw =>
          Stored (TeleinfoFrame.TeleinfoFrame
                    (dict_set (TeleinfoFrame._raw_data self) key raw))
      end
  end.

(** ** Vocabulary of the further properties *)

(** A byte below 0x80: all that the serial line, opened with seven-bit
    words, delivers. *)
Definition seven_bit (b : byte) : Prop := (Byte.to_N b < 128)%N.

(** A code point that a text can hold and [encode] can write: up to
    U+10FFFF and no surrogate. *)
Definition scalar (c : N) : Prop :=
  (c < 0xD800 \/ 0xDFFF < c < 0x110000)%N.

(** A value that [set] can store: a text of such code points, an integer
    whose digits are within the limit of the interpreter, or a [bool]. *)
Definition storable (lim : option nat) (value : Any) : Prop :=
  match value with
  | AStr s => Forall scalar s
  | AInt z =>
      over_limit lim (List.length (decimal_digits (Z.abs_N z))) = false
  | ABool _ => True
  end.

(** The coercion of [get] for a tag, applied to a text. *)
Definition coerce (sp : N -> bool) (dec : N -> option N) (lim : option nat)
  (tag : type_tag) (text : str) : pyres TeleinfoFrame.field :=
  match tag with
  | String_tag => Ok (TeleinfoFrame.FStr (TeleinfoFrame.rstrip_dot text))
  | Integer_tag =>
      z <- py_int sp dec lim text ;; Ok (TeleinfoFrame.FInt z)
  end.

(** The lines of a payload joined by CRLF, and the frame as the meter
    sends it: every information group between a line feed and a carriage
    return. *)
Fixpoint join_lines (groups : list bytes) : bytes :=
  match groups with
  | [] => []
  | g :: gs =>
      match gs with
      | [] => g
      | _ :: _ => g ++ CR :: LF :: join_lines gs
      end
  end.

Definition meter_frame (groups : list bytes) : bytes :=
  flat_map (fun g => LF :: g ++ [CR]) groups.

(** A byte string that starts, or ends, with a byte that is no white
    space. *)
Definition starts_clean (s : bytes) : Prop :=
  match s with
  | b :: _ => bytes_isspace b = false
  | [] => False
  end.

Definition ends_clean (s : bytes) : Prop := starts_clean (rev s).

(** A frame on the wire after some noise, and a stream of such frames. *)
Definition framed (noise payload : bytes) : bytes :=
  noise ++ x02 :: payload ++ [x03].

Definition frames_stream (frames : list (bytes * bytes)) : bytes :=
  flat_map (fun f => framed (fst f) (snd f)) frames.

Section LoopVocabulary.
Variable sp : N -> bool.
Variable dec : N -> option N.
Variable lim : option nat.

(** What the loop hands to [_write_measurement] for a payload: its fields
    when it parses and formats, nothing otherwise. *)
Definition written_for (payload : bytes) : list (dict TeleinfoFrame.field) :=
  match TeleinfoReader._parse_frame payload with
  | Ok frame =>
      match TeleinfoFrame.format_fields sp dec lim frame with
      | Ok fields => [fields]
      | Raise _ => []
      end
  | Raise _ => []
  end.

(** A payload the loop gets over: it parses and formats, or its parsing
    raises a [TeleinfoException]. *)
Definition passes (payload : bytes) : Prop :=
  match TeleinfoReader._parse_frame payload with
  | Ok frame => exists fields,
      TeleinfoFrame.format_fields sp dec lim frame = Ok fields
  | Raise e => is_TeleinfoException e = true
  end.

(** A payload that ends the loop with exception [e]: its parsing raises
    [e], which is no [TeleinfoException], or its formatting raises [e]. *)
Definition stops_with (payload : bytes) (e : exn) : Prop :=
  match TeleinfoReader._parse_frame payload with
  | Ok frame => TeleinfoFrame.format_fields sp dec lim frame = Raise e
  | Raise e' => e' = e /\ is_TeleinfoException e = false
  end.

(** A frame of a stream: noise without start marker, payload without end
    marker. *)
Definition well_framed (f : bytes * bytes) : Prop :=
  Forall not_start (fst f) /\ Forall not_end (snd f).
End LoopVocabulary.

(** An outcome of [write_points] after which [_write_measurement] tries
    again: a false value, or [InfluxDBServerError]. *)
Definition retried (o : write_outcome) : Prop :=
  o = Wrote false \/ o = ServerError.

(** A client whose [write_points] raises nothing but
    [InfluxDBServerError]. *)
Definition raises_server_errors_only
  (write_points : nat -> list measurement_data -> write_outcome) : Prop :=
  forall k points, write_points k points <> OtherError.

(** A payload the loop skips: its parsing raises a [TeleinfoException]. *)
Definition fails_control (payload : bytes) : Prop :=
  exists e, TeleinfoReader._parse_frame payload = Raise e
            /\ is_TeleinfoException e = true.

(** The keys the lines of a payload stand for, in the order of the lines;
    and the keys of a list in the order of their first occurrence, without
    those already [seen]. *)
Definition line_keys (lines : list bytes) : list str :=
  flat_map (fun line => match line_binding line with
                        | Some (k, _) => [k]
                        | None => []
                        end) lines.

Fixpoint first_occurrences (seen keys : list str) : list str :=
  match keys with
  | [] => []
  | k :: keys' =>
      if existsb (str_eqb k) seen then first_occurrences seen keys'
      else k :: first_occurrences (k :: seen) keys'
  end.

(** ** Proof tools *)

(** Settles one comparison of numbers that [lia] can decide. *)
Ltac decide_test :=
  match goal with
  | |- context [(?a <? ?b)%N] =>
      first [ replace (a <? b)%N with true by (symmetry; apply N.ltb_lt; lia)
            | replace (a <? b)%N with false
                by (symmetry; apply N.ltb_ge; lia) ]
  | |- context [(?a <=? ?b)%N] =>
      first [ replace (a <=? b)%N with true by (symmetry; apply N.leb_le; lia)
            | replace (a <=? b)%N with false
                by (symmetry; apply N.leb_gt; lia) ]
  | |- context [(?a =? ?b)%N] =>
      first [ replace (a =? b)%N with true by (symmetry; apply N.eqb_eq; lia)
            | replace (a =? b)%N with false
                by (symmetry; apply N.eqb_neq; lia) ]
  end.

Ltac decide_tests := repeat (decide_test; cbn [andb orb negb fst snd]).

(** * Properties *)

Unset Implicit Arguments.

(** ** Bytes, text and dictionaries *)

Lemma to_N_inj (x y : byte) : Byte.to_N x = Byte.to_N y -> x = y.
Proof.
  intros H.
  assert (E : Some x = Some y)
    by (rewrite <- (Byte.of_to_N x), <- (Byte.of_to_N y), H; reflexivity).
  now inversion E.
Qed.

Lemma to_N_eqb_false (x y : byte) :
  x <> y -> (Byte.to_N x =? Byte.to_N y)%N = false.
Proof.
  intros H. apply N.eqb_neq. intros E. apply H, to_N_inj, E.
Qed.

Lemma str_eqb_eq (a b : str) : str_eqb a b = true <-> a = b.
Proof.
  revert b. induction a as [|x a IH]; intros [|y b]; simpl;
    try (split; (reflexivity || discriminate)).
  rewrite andb_true_iff, N.eqb_eq, IH.
  split; [intros [-> ->]; reflexivity | intros E; inversion E; auto].
Qed.

Lemma str_eqb_refl (a : str) : str_eqb a a = true.
Proof. now apply str_eqb_eq. Qed.

Lemma str_eqb_neq (a b : str) : str_eqb a b = false <-> a <> b.
Proof.
  rewrite <- str_eqb_eq. destruct (str_eqb a b); split; congruence.
Qed.

Section DictFacts.
Variable V : Type.
Implicit Types (d : dict V) (k : str) (v : V).

Lemma dict_get_set d k v k' :
  dict_get (dict_set d k v) k'
  = if str_eqb k' k then Some v else dict_get d k'.
Proof.
  induction d as [|[k0 v0] d IH]; simpl.
  - reflexivity.
  - destruct (str_eqb k k0) eqn:E; simpl.
    + apply str_eqb_eq in E. subst k0.
      destruct (str_eqb k' k); reflexivity.
    + destruct (str_eqb k' k0) eqn:E0.
      * apply str_eqb_eq in E0. subst k0.
        destruct (str_eqb k' k) eqn:E1; [|reflexivity].
        apply str_eqb_eq in E1. subst k'.
        rewrite str_eqb_refl in E. discriminate.
      * apply IH.
Qed.

Lemma dict_get_None_keys d k :
  dict_get d k = None <-> ~ In k (dict_keys d).
Proof.
  induction d as [|[k0 v0] d IH]; simpl.
  - tauto.
  - destruct (str_eqb k k0) eqn:E.
    + apply str_eqb_eq in E. subst k0.
      split; [discriminate | intros H; exfalso; apply H; now left].
    + apply str_eqb_neq in E. rewrite IH.
      split; [intros H [H0|H0]; [congruence | tauto] | tauto].
Qed.

(** Assigning to a key that is present leaves the keys as they are; a new
    key is added at the end. *)
Lemma dict_keys_set d k v :
  dict_keys (dict_set d k v)
  = match dict_get d k with
    | Some _ => dict_keys d
    | None => dict_keys d ++ [k]
    end.
Proof.
  induction d as [|[k0 v0] d IH]; simpl.
  - reflexivity.
  - destruct (str_eqb k k0) eqn:E; simpl.
    + reflexivity.
    + rewrite IH. destruct (dict_get d k); reflexivity.
Qed.

Lemma dict_set_NoDup d k v :
  NoDup (dict_keys d) -> NoDup (dict_keys (dict_set d k v)).
Proof.
  intros H. rewrite dict_keys_set.
  destruct (dict_get d k) eqn:E; [exact H|].
  apply dict_get_None_keys in E.
  apply NoDup_app; [exact H | repeat constructor; intros [] | ].
  intros x Hx [<-|[]]. exact (E Hx).
Qed.
End DictFacts.

Section StripFacts.
Variable A : Type.
Variable drop : A -> bool.

Lemma lstrip_with_all (s : list A) :
  forallb drop s = true -> lstrip_with drop s = [].
Proof.
  induction s as [|c s IH]; simpl; [reflexivity|].
  destruct (drop c); simpl; [exact IH | discriminate].
Qed.

(** What [lstrip_with] removes is a run of dropped elements, and what is
    left does not start with one. *)
Lemma lstrip_with_spec (s : list A) :
  exists p, s = p ++ lstrip_with drop s
            /\ forallb drop p = true
            /\ (forall c r, lstrip_with drop s = c :: r -> drop c = false).
Proof.
  induction s as [|c s (p & E & Hp & Hh)]; simpl.
  - exists []. repeat split. discriminate.
  - destruct (drop c) eqn:Ec.
    + exists (c :: p). simpl. rewrite Ec, Hp. repeat split.
      * now f_equal.
      * exact Hh.
    + exists []. repeat split. intros c' r [= <- _]. exact Ec.
Qed.
End StripFacts.

Lemma bytes_strip_blank (s : bytes) :
  forallb bytes_isspace s = true -> bytes_strip s = [].
Proof.
  intros H. unfold bytes_strip, rstrip_with.
  rewrite (lstrip_with_all _ _ _ H). reflexivity.
Qed.

(** ** Splitting *)

Lemma strip_prefix_app (sep s after : bytes) :
  strip_prefix sep s = Some after -> s = sep ++ after.
Proof.
  revert s. induction sep as [|x sep IH]; intros [|y s]; simpl;
    try congruence.
  destruct (Byte.eqb x y) eqn:E; [|discriminate].
  apply Byte.byte_dec_bl in E. subst y.
  intros H. f_equal. now apply IH.
Qed.

Lemma bytes_find_app (sep s before after : bytes) :
  bytes_find sep s = Some (before, after) -> s = before ++ sep ++ after.
Proof.
  revert before. induction s as [|c s IH]; intros before.
  - cbn [bytes_find].
    destruct (strip_prefix sep []) eqn:E; [|discriminate].
    intros H. inversion H; subst. simpl. now apply strip_prefix_app.
  - cbn [bytes_find].
    destruct (strip_prefix sep (c :: s)) eqn:E.
    + intros H. inversion H; subst. simpl. now apply strip_prefix_app.
    + destruct (bytes_find sep s) as [[b' a']|]; [|discriminate].
      intros H. inversion H; subst. simpl. f_equal. now apply IH.
Qed.

Lemma bytes_split_n_length (sep : bytes) (n : nat) (s : bytes) :
  1 <= List.length (bytes_split_n sep n s) <= S n.
Proof.
  revert s. induction n as [|n IH]; intros s; simpl; [lia|].
  destruct (bytes_find sep s) as [[before after]|]; simpl; [|lia].
  specialize (IH after). lia.
Qed.

(** Three tokens are the line cut at its first two spaces. *)
Lemma split3_join (line label value checksum : bytes) :
  bytes_split_n [SP] 2 line = [label; value; checksum] ->
  line = label ++ SP :: value ++ SP :: checksum.
Proof.
  simpl.
  destruct (bytes_find [SP] line) as [[l a]|] eqn:E1; [|discriminate].
  destruct (bytes_find [SP] a) as [[v c]|] eqn:E2; [|discriminate].
  intros [= <- <- <-].
  apply bytes_find_app in E1, E2. subst. reflexivity.
Qed.

(** With a one-byte separator, [bytes_find] cuts at its first occurrence. *)
Lemma bytes_find_single (c : byte) (s : bytes) :
  match bytes_find [c] s with
  | None => ~ In c s
  | Some (before, after) => s = before ++ c :: after /\ ~ In c before
  end.
Proof.
  induction s as [|x s IH]; [intros []|].
  cbn [bytes_find strip_prefix].
  destruct (Byte.eqb c x) eqn:E.
  - apply Byte.byte_dec_bl in E. subst x. split; [reflexivity | intros []].
  - apply Byte.eqb_false in E.
    destruct (bytes_find [c] s) as [[before after]|].
    + destruct IH as [-> Hb]. split; [reflexivity|].
      intros [H|H]; [now elim E | now elim Hb].
    + intros [H|H]; [now elim E | now elim IH].
Qed.

Lemma bytes_find_first (c : byte) (before after : bytes) :
  ~ In c before ->
  bytes_find [c] (before ++ c :: after) = Some (before, after).
Proof.
  induction before as [|x before IH]; intros H.
  - cbn [app bytes_find strip_prefix].
    now rewrite (Byte.byte_dec_lb (eq_refl c)).
  - cbn [app bytes_find strip_prefix].
    destruct (Byte.eqb c x) eqn:E.
    + apply Byte.byte_dec_bl in E. subst x. elim H. now left.
    + rewrite IH; [reflexivity | intros Hin; apply H; now right].
Qed.

(** The three tokens of a line: the label and the value hold no space, and
    the third token is all that follows the second space. *)
Lemma split3_iff (line label value checksum : bytes) :
  bytes_split_n [SP] 2 line = [label; value; checksum]
  <-> line = label ++ SP :: value ++ SP :: checksum
      /\ ~ In SP label /\ ~ In SP value.
Proof.
  cbn [bytes_split_n]. split.
  - pose proof (bytes_find_single SP line) as H1.
    destruct (bytes_find [SP] line) as [[l a]|]; [|discriminate].
    pose proof (bytes_find_single SP a) as H2.
    destruct (bytes_find [SP] a) as [[v c]|]; [|discriminate].
    intros [= <- <- <-]. destruct H1 as [-> Hl], H2 as [-> Hv]. tauto.
  - intros (-> & Hl & Hv).
    now rewrite (bytes_find_first _ _ _ Hl), (bytes_find_first _ _ _ Hv).
Qed.

(** The number of tokens is one more than the number of separators, up to
    the limit of the split. *)
Lemma bytes_split_n_count (c : byte) (n : nat) (s : bytes) :
  List.length (bytes_split_n [c] n s)
  = Nat.min (S n) (S (count_occ Byte.byte_eq_dec s c)).
Proof.
  revert s. induction n as [|n IH]; intros s; [reflexivity|].
  cbn [bytes_split_n].
  pose proof (bytes_find_single c s) as H.
  destruct (bytes_find [c] s) as [[before after]|].
  - destruct H as [-> Hb]. cbn [List.length]. rewrite IH, count_occ_app.
    apply (count_occ_not_In Byte.byte_eq_dec) in Hb. rewrite Hb.
    rewrite count_occ_cons_eq by reflexivity. reflexivity.
  - apply (count_occ_not_In Byte.byte_eq_dec) in H. rewrite H. reflexivity.
Qed.

(** A short line is a line with fewer than two spaces. *)
Lemma short_line_iff (line : bytes) :
  short_line line <-> count_occ Byte.byte_eq_dec line SP < 2.
Proof.
  unfold short_line. rewrite bytes_split_n_count. lia.
Qed.

(** ** The frame extractor *)

Section Extractor.
Import TeleinfoReader.

(** The loop as the source writes it: read a chunk of at most one byte,
    return [None] when it is empty, otherwise run the [for] over it. *)
Lemma while_true_read (rd : reader) (started : bool) (frame_buffer : bytes) :
  while_true rd started frame_buffer
  = let '(chunk_data, rd') := read 1 rd in
    match chunk_data with
    | [] => (Ok None, rd')
    | _ :: _ =>
        match for_chunk chunk_data started frame_buffer with
        | Return r => (some_frame r, rd')
        | Next started' frame_buffer' =>
            while_true rd' started' frame_buffer'
        end
    end.
Proof. destruct rd; reflexivity. Qed.

Lemma for_chunk_capturing (b : byte) (frame_buffer : bytes) :
  not_end b -> for_chunk [b] true frame_buffer = Next true (frame_buffer ++ [b]).
Proof.
  intros H. simpl. change 3%N with (Byte.to_N x03).
  now rewrite (to_N_eqb_false _ _ H).
Qed.

Lemma for_chunk_idle (b : byte) (frame_buffer : bytes) :
  not_start b -> for_chunk [b] false frame_buffer = Next false frame_buffer.
Proof.
  intros H. simpl. change 2%N with (Byte.to_N x02).
  now rewrite (to_N_eqb_false _ _ H).
Qed.

Lemma while_true_idle (noise rd frame_buffer : bytes) :
  Forall not_start noise ->
  while_true (noise ++ rd) false frame_buffer = while_true rd false frame_buffer.
Proof.
  induction 1 as [|b noise Hb _ IH]; [reflexivity|].
  cbn [app while_true]. now rewrite (for_chunk_idle _ _ Hb).
Qed.

Lemma while_true_capturing (payload rd frame_buffer : bytes) :
  Forall not_end payload ->
  while_true (payload ++ rd) true frame_buffer
  = while_true rd true (frame_buffer ++ payload).
Proof.
  intros H. revert frame_buffer.
  induction H as [|b payload Hb _ IH]; intros frame_buffer.
  - now rewrite app_nil_r.
  - cbn [app while_true]. rewrite (for_chunk_capturing _ _ Hb), IH.
    now rewrite <- app_assoc.
Qed.

Lemma while_true_start (rd frame_buffer : bytes) :
  while_true (x02 :: rd) false frame_buffer = while_true rd true frame_buffer.
Proof. reflexivity. Qed.

Lemma while_true_end (rd frame_buffer : bytes) :
  while_true (x03 :: rd) true frame_buffer
  = (some_frame (_parse_frame frame_buffer), rd).
Proof. reflexivity. Qed.

(** A whole frame: noise, start marker, payload, end marker. *)
Lemma read_frame_framed (noise payload rd : bytes) :
  Forall not_start noise -> Forall not_end payload ->
  read_frame (noise ++ x02 :: payload ++ x03 :: rd)
  = (some_frame (_parse_frame payload), rd).
Proof.
  intros Hn Hp. unfold read_frame.
  now rewrite (while_true_idle _ _ _ Hn), while_true_start,
    (while_true_capturing _ _ _ Hp), while_true_end.
Qed.

Lemma some_frame_not_None (r : pyres TeleinfoFrame.t) :
  some_frame r <> Ok None.
Proof. destruct r; discriminate. Qed.

(** Whatever [read_frame] returns other than [None] was cut out of the
    stream between a start marker and the first end marker after it. *)
Lemma while_true_capturing_inv (rd rd' frame_buffer : bytes) r :
  while_true rd true frame_buffer = (r, rd') -> r <> Ok None ->
  exists payload,
    rd = payload ++ x03 :: rd' /\ Forall not_end payload
    /\ r = some_frame (_parse_frame (frame_buffer ++ payload)).
Proof.
  revert frame_buffer. induction rd as [|b rd IH]; intros fb H Hr.
  - inversion H; subst. now elim Hr.
  - destruct (Byte.byte_eq_dec b x03) as [->|Hb].
    + rewrite while_true_end in H. inversion H; subst.
      exists []. rewrite app_nil_r. repeat split. constructor.
    + cbn [while_true] in H. rewrite (for_chunk_capturing _ _ Hb) in H.
      destruct (IH _ H Hr) as (p & -> & Hp & ->).
      exists (b :: p). rewrite <- app_assoc. repeat split.
      now constructor.
Qed.

Lemma while_true_idle_inv (rd rd' frame_buffer : bytes) r :
  while_true rd false frame_buffer = (r, rd') -> r <> Ok None ->
  exists noise payload,
    rd = noise ++ x02 :: payload ++ x03 :: rd'
    /\ Forall not_start noise /\ Forall not_end payload
    /\ r = some_frame (_parse_frame (frame_buffer ++ payload)).
Proof.
  induction rd as [|b rd IH]; intros H Hr.
  - inversion H; subst. now elim Hr.
  - destruct (Byte.byte_eq_dec b x02) as [->|Hb].
    + rewrite while_true_start in H.
      destruct (while_true_capturing_inv _ _ _ _ H Hr) as (p & -> & Hp & ->).
      exists [], p. repeat split; [constructor | exact Hp].
    + cbn [while_true] in H. rewrite (for_chunk_idle _ _ Hb) in H.
      destruct (IH H Hr) as (n & p & -> & Hn & Hp & ->).
      exists (b :: n), p. repeat split; [now constructor | exact Hp].
Qed.

(** A call that returns a frame or raises has read at least two bytes. *)
Lemma read_frame_consumes (rd rd' : reader) r :
  read_frame rd = (r, rd') -> r <> Ok None ->
  List.length rd' + 2 <= List.length rd.
Proof.
  intros H Hr.
  destruct (while_true_idle_inv _ _ _ _ H Hr) as (n & p & -> & _).
  rewrite !length_app; simpl; rewrite !length_app; simpl. lia.
Qed.

(** An exhausted stream returns [None], whatever was captured. *)
Lemma while_true_eof (started : bool) (frame_buffer : bytes) :
  while_true [] started frame_buffer = (Ok None, []).
Proof. reflexivity. Qed.
End Extractor.

Section ExtractorClaims.
Import TeleinfoReader.

(** C5: while capturing, every byte other than the end marker 0x03 is
  appended to the payload buffer as it is, the start marker 0x02 included:
  the extractor stays capturing with the buffer extended by that byte, and
  the frame handed to the parser at the next end marker is the buffer with
  all those bytes, none dropped and none restarting it. *)
Theorem capturing_appends_verbatim :
forall (b : byte) (payload rd frame_buffer : bytes),
  not_end b -> Forall not_end payload ->
  for_chunk [b] true frame_buffer = Next true (frame_buffer ++ [b])
  /\ while_true (b :: payload ++ x03 :: rd) true frame_buffer
     = (some_frame (_parse_frame (frame_buffer ++ b :: payload)), rd).
Proof.
intros b payload rd fb Hb Hp. split.
- now apply for_chunk_capturing.
- change (b :: payload ++ x03 :: rd) with ((b :: payload) ++ x03 :: rd).
  rewrite while_true_capturing by now constructor.
  apply while_true_end.
Qed.

Lemma capturing_appends_verbatim_witness :
not_end x02 /\ Forall not_end [x41; x02]
/\ for_chunk [x02] true [x42] = Next true [x42; x02]
/\ while_true (x02 :: [x41; x02] ++ x03 :: [x43]) true [x42]
   = (some_frame (_parse_frame [x42; x02; x41; x02]), [x43]).
Proof.
assert (H1 : not_end x02) by discriminate.
assert (H2 : Forall not_end [x41; x02])
  by (repeat constructor; discriminate).
split; [exact H1 | split; [exact H2|]].
exact (capturing_appends_verbatim x02 [x41; x02] [x43] [x42] H1 H2).
Defined.

(** C6: when the stream ends after a start marker and before any end
  marker, [read_frame] returns [None]; nothing of the captured bytes is
  kept, so the next call returns [None] as well; and a frame that
  [read_frame] does return was closed by an end marker in the stream. *)
Theorem unterminated_frame_is_dropped :
forall (noise partial : bytes),
  Forall not_start noise -> Forall not_end partial ->
  read_frame (noise ++ x02 :: partial) = (Ok None, [])
  /\ read_frame (snd (read_frame (noise ++ x02 :: partial))) = (Ok None, [])
  /\ (forall rd frame rd',
        read_frame rd = (Ok (Some frame), rd') ->
        exists n p,
          rd = n ++ x02 :: p ++ x03 :: rd'
          /\ Forall not_start n /\ Forall not_end p
          /\ _parse_frame p = Ok frame).
Proof.
intros noise partial Hn Hp.
assert (E : read_frame (noise ++ x02 :: partial) = (Ok None, [])).
{ unfold read_frame.
  rewrite (while_true_idle _ _ _ Hn), while_true_start.
  rewrite <- (app_nil_r partial), (while_true_capturing _ _ _ Hp).
  apply while_true_eof. }
split; [exact E | split; [rewrite E; reflexivity|]].
intros rd frame rd' H.
destruct (while_true_idle_inv _ _ _ _ H) as (n & p & -> & Hn' & Hp' & E');
  [discriminate|].
exists n, p. repeat split; try assumption.
simpl in E'. destruct (_parse_frame p); [|discriminate].
now inversion E'.
Qed.

Lemma unterminated_frame_is_dropped_witness :
Forall not_start [x41; x03] /\ Forall not_end (line_ADCO ++ [x02; CR])
/\ read_frame ([x41; x03] ++ x02 :: line_ADCO ++ [x02; CR]) = (Ok None, []).
Proof.
assert (H1 : Forall not_start [x41; x03])
  by (repeat constructor; discriminate).
assert (H2 : Forall not_end (line_ADCO ++ [x02; CR]))
  by (repeat constructor; discriminate).
split; [exact H1 | split; [exact H2|]].
exact (proj1 (unterminated_frame_is_dropped _ _ H1 H2)).
Defined.

(** C7: bytes before the first start marker are discarded.  For noise
  without the byte 0x02 in front of a valid frame (a payload without the
  byte 0x03 that parses to a record, between its markers), [read_frame]
  returns that record, the one it returns on the frame alone, and leaves
  the same unread rest; and whatever the input after the noise, the result
  (record, error or [None]) and the unread rest are those of the input
  alone. *)
Theorem leading_noise_is_discarded :
forall (noise payload rd : bytes) (frame : TeleinfoFrame.t),
  Forall not_start noise -> Forall not_end payload ->
  _parse_frame payload = Ok frame ->
  read_frame (noise ++ x02 :: payload ++ x03 :: rd) = (Ok (Some frame), rd)
  /\ read_frame (x02 :: payload ++ x03 :: rd) = (Ok (Some frame), rd)
  /\ (forall input : bytes, read_frame (noise ++ input) = read_frame input).
Proof.
intros noise payload rd frame Hn Hp E.
split; [|split].
- now rewrite (read_frame_framed _ _ _ Hn Hp), E.
- pose proof (read_frame_framed [] payload rd (Forall_nil _) Hp) as R.
  cbn [app] in R. now rewrite R, E.
- intros input. unfold read_frame. now apply while_true_idle.
Qed.

Lemma leading_noise_is_discarded_witness :
let noise := b_ "noise" ++ [x03; CR; LF] in
let frame :=
  TeleinfoFrame.TeleinfoFrame
    [(s_ "ADCO", b_ "012345678901"); (s_ "HCHC", b_ "001234567")] in
Forall not_start noise /\ Forall not_end scenario_payload
/\ _parse_frame scenario_payload = Ok frame
/\ read_frame (noise ++ x02 :: scenario_payload ++ x03 :: [x41])
   = (Ok (Some frame), [x41])
/\ read_frame (x02 :: scenario_payload ++ x03 :: [x41])
   = (Ok (Some frame), [x41]).
Proof.
intros noise frame.
assert (H1 : Forall not_start noise)
  by (repeat constructor; discriminate).
assert (H2 : Forall not_end scenario_payload)
  by (repeat constructor; discriminate).
assert (H3 : _parse_frame scenario_payload = Ok frame) by reflexivity.
split; [exact H1 | split; [exact H2 | split; [exact H3|]]].
destruct (leading_noise_is_discarded noise scenario_payload [x41] frame
            H1 H2 H3) as (R1 & R2 & _).
exact (conj R1 R2).
Defined.

End ExtractorClaims.

(** ** The line parser *)

Section LineParser.
Import TeleinfoReader.

Lemma py_sum_fold_right (l : list N) : py_sum l = fold_right N.add 0%N l.
Proof.
  unfold py_sum. apply fold_symmetric; intros; lia.
Qed.

Lemma slice_0_m2_removelast (s : bytes) :
  slice_0_m2 s = removelast (removelast s).
Proof.
  unfold slice_0_m2.
  rewrite (removelast_firstn_len (removelast s)), (removelast_firstn_len s).
  rewrite length_firstn, firstn_firstn. f_equal. lia.
Qed.

(** The checksum the code computes is the one the specification words. *)
Lemma line_sum_spec (line : bytes) : line_sum line = spec_checksum line.
Proof.
  unfold line_sum, spec_checksum, sum_but_last_two.
  now rewrite py_sum_fold_right, slice_0_m2_removelast.
Qed.

Lemma line_sum_range (line : bytes) : (0x20 <= line_sum line <= 0x5F)%N.
Proof.
  unfold line_sum.
  assert (H : (N.land (py_sum (map Byte.to_N (slice_0_m2 line))) 0x3F
               < 2 ^ 6)%N).
  { change 0x3F%N with (N.ones 6). rewrite N.land_ones.
    apply N.mod_lt. discriminate. }
  change (2 ^ 6)%N with 64%N in H. lia.
Qed.

Lemma check_line_short (frame_data line : bytes) :
  short_line line -> check_line frame_data line = Raise ValueError.
Proof.
  unfold short_line, check_line. intros H.
  destruct (bytes_split_n [SP] 2 line) as [|a [|b [|c [|d l]]]];
    simpl in *; try reflexivity; lia.
Qed.

Lemma check_line_three (frame_data line label value rest : bytes) (c : byte) :
  bytes_split_n [SP] 2 line = [label; value; c :: rest] ->
  check_line frame_data line
  = if (line_sum line =? Byte.to_N c)%N then Ok (label, value)
    else Raise (TeleinfoException line (line_sum line) (Byte.to_N c)
                                  frame_data).
Proof.
  intros H. unfold check_line. rewrite H. simpl.
  destruct (line_sum line =? Byte.to_N c)%N; reflexivity.
Qed.

Lemma check_line_no_checksum (frame_data line label value : bytes) :
  bytes_split_n [SP] 2 line = [label; value; []] ->
  check_line frame_data line = Raise IndexError.
Proof. intros H. unfold check_line. now rewrite H. Qed.

Lemma parse_line_raise (frame_data line : bytes) (e : exn) :
  check_line frame_data line = Raise e ->
  parse_line frame_data line = Raise e.
Proof. intros H. unfold parse_line. now rewrite H. Qed.

Lemma parse_lines_app (frame_data : bytes) (pre rest : list bytes)
  (d : dict bytes) :
  parse_lines frame_data (pre ++ rest) d
  = (d' <- parse_lines frame_data pre d ;; parse_lines frame_data rest d').
Proof.
  revert d. induction pre as [|line pre IH]; intros d; simpl.
  - reflexivity.
  - destruct (parse_line frame_data line) as [kv|e]; simpl; [apply IH|].
    reflexivity.
Qed.

Lemma parse_lines_ok (frame_data : bytes) (pre : list bytes) (d : dict bytes) :
  Forall (line_ok frame_data) pre ->
  exists d', parse_lines frame_data pre d = Ok d'.
Proof.
  intros H. revert d. induction H as [|line pre [kv E] _ IH]; intros d.
  - now exists d.
  - simpl. rewrite E. simpl. apply IH.
Qed.

(** The first line that fails decides the exception. *)
Lemma parse_lines_first_failure (frame_data : bytes) (pre post : list bytes)
  (line : bytes) (e : exn) (d : dict bytes) :
  Forall (line_ok frame_data) pre ->
  parse_line frame_data line = Raise e ->
  parse_lines frame_data (pre ++ line :: post) d = Raise e.
Proof.
  intros Hpre E. rewrite parse_lines_app.
  destruct (parse_lines_ok _ _ d Hpre) as [d' ->]. simpl. now rewrite E.
Qed.

(** One failing line anywhere is enough for the loop to raise. *)
Lemma parse_lines_any_failure (frame_data : bytes) (lines : list bytes)
  (line : bytes) (e : exn) (d : dict bytes) :
  In line lines -> parse_line frame_data line = Raise e ->
  exists e', parse_lines frame_data lines d = Raise e'.
Proof.
  intros Hin E. revert d.
  induction lines as [|l lines IH]; intros d; [destruct Hin|].
  simpl. destruct (parse_line frame_data l) as [kv|e0] eqn:El; simpl.
  - destruct Hin as [->|Hin]; [congruence | now apply IH].
  - now exists e0.
Qed.

Lemma parse_frame_raise (frame_data : bytes) (e : exn) :
  parse_lines frame_data (frame_lines frame_data) [] = Raise e ->
  _parse_frame frame_data = Raise e.
Proof. intros H. unfold _parse_frame. now rewrite H. Qed.

(** A payload whose first failing line is a short one raises the
    [ValueError] of the unpacking. *)
Lemma parse_frame_short_line (frame_data : bytes) (pre post : list bytes)
  (line : bytes) :
  frame_lines frame_data = pre ++ line :: post ->
  Forall (line_ok frame_data) pre -> short_line line ->
  _parse_frame frame_data = Raise ValueError.
Proof.
  intros E Hpre Hs. apply parse_frame_raise. rewrite E.
  apply parse_lines_first_failure; [exact Hpre|].
  now apply parse_line_raise, check_line_short.
Qed.

(** A payload of white space only has one line, the empty one. *)
Lemma frame_lines_blank (frame_data : bytes) :
  forallb bytes_isspace frame_data = true -> frame_lines frame_data = [[]].
Proof.
  intros H. unfold frame_lines. now rewrite bytes_strip_blank.
Qed.

Lemma parse_frame_blank (frame_data : bytes) :
  forallb bytes_isspace frame_data = true ->
  _parse_frame frame_data = Raise ValueError.
Proof.
  intros H.
  apply (@parse_frame_short_line frame_data [] [] []).
  - now apply frame_lines_blank.
  - constructor.
  - unfold short_line. simpl. lia.
Qed.

End LineParser.

(** ** The reading loop *)

Section WriteReturns.
Variable write_points : nat -> list measurement_data -> write_outcome.

(** With a client that raises nothing but [InfluxDBServerError],
    [_write_measurement] returns. *)
Lemma write_measurement_returns (attempts : Z) (k : nat)
  (name utc_time : str) (fields : dict TeleinfoFrame.field)
  (tags : option (dict TeleinfoFrame.field)) :
  raises_server_errors_only write_points ->
  exists ok k',
    _write_measurement write_points attempts k name utc_time fields tags
    = (Returned ok, k').
Proof.
  intros Hc. unfold _write_measurement.
  generalize (Z.to_nat attempts) as remaining. intros remaining. revert k.
  induction remaining as [|remaining IH]; intros k; cbn [attempts_loop].
  - now exists false, k.
  - destruct (write_points k _) as [[|]| |] eqn:E.
    + now exists true, (S k).
    + apply IH.
    + apply IH.
    + now elim (Hc _ _ E).
Qed.

(** An attempt that raises another exception, after attempts that were
    retried, ends [_write_measurement] with that exception. *)
Lemma attempts_loop_propagates (remaining k i : nat) (name utc_time : str)
  (fields : dict TeleinfoFrame.field)
  (tags : option (dict TeleinfoFrame.field)) :
  i < remaining ->
  (forall j, j < i ->
     retried (write_points (k + j)
                [build_measurement name utc_time fields tags])) ->
  write_points (k + i) [build_measurement name utc_time fields tags]
  = OtherError ->
  attempts_loop write_points remaining k name utc_time fields tags
  = (Propagated, S (k + i)).
Proof.
  revert remaining k. induction i as [|i IH]; intros remaining k Hi Hj Ho;
    (destruct remaining as [|remaining]; [lia|]); cbn [attempts_loop].
  - rewrite Nat.add_0_r in *. now rewrite Ho.
  - assert (H0 : retried (write_points k
                            [build_measurement name utc_time fields tags])).
    { rewrite <- (Nat.add_0_r k). apply Hj. lia. }
    rewrite Nat.add_succ_r in *.
    assert (E : attempts_loop write_points remaining (S k) name utc_time
                  fields tags = (Propagated, S (S k + i))).
    { apply IH; [lia | | exact Ho].
      intros j Hlt. specialize (Hj (S j)).
      rewrite Nat.add_succ_r in Hj. apply Hj. lia. }
    destruct H0 as [-> | ->]; exact E.
Qed.
End WriteReturns.

Section ReadingLoop.
Import TeleinfoReader Teleinflux.
Variable unicode_isspace : N -> bool.
Variable unicode_todecimal : N -> option N.
Variable int_max_str_digits : option nat.
Variable write_points : nat -> list measurement_data -> write_outcome.
Variable _influx_write_attemps : Z.
Variable utc_time : nat -> str.

Local Abbreviation run_turn :=
  (run_turn unicode_isspace unicode_todecimal int_max_str_digits
            write_points _influx_write_attemps utc_time).
Local Abbreviation run_loop :=
  (run_loop unicode_isspace unicode_todecimal int_max_str_digits
            write_points _influx_write_attemps utc_time).
Local Abbreviation run :=
  (run unicode_isspace unicode_todecimal int_max_str_digits
       write_points _influx_write_attemps utc_time).
Local Abbreviation write_ :=
  (_write_measurement write_points _influx_write_attemps).

(** What a turn does with a frame whose parsing raises: the [except] clause
    takes a [TeleinfoException], anything else leaves the loop. *)
Lemma run_turn_raise (noise payload rd : bytes) (e : exn) (n k : nat) :
  Forall not_start noise -> Forall not_end payload ->
  _parse_frame payload = Raise e ->
  run_turn (noise ++ x02 :: payload ++ x03 :: rd) n k
  = (if is_TeleinfoException e then Continue else Escapes e, rd, k).
Proof.
  intros Hn Hp E. unfold Teleinflux.run_turn.
  rewrite (read_frame_framed _ _ _ Hn Hp), E. simpl.
  destruct (is_TeleinfoException e); reflexivity.
Qed.

(** A frame whose first failing line is a short one ends the loop with the
    [ValueError]; a frame whose first failing line has a checksum mismatch
    is skipped and the loop goes on. *)
Lemma short_line_leaves_the_loop (noise frame_data rd line : bytes)
  (pre post : list bytes) (n k : nat) :
  Forall not_start noise -> Forall not_end frame_data ->
  frame_lines frame_data = pre ++ line :: post ->
  Forall (line_ok frame_data) pre -> short_line line ->
  run_turn (noise ++ x02 :: frame_data ++ x03 :: rd) n k
  = (Escapes ValueError, rd, k).
Proof.
  intros Hn Hp Hl Hpre Hs.
  now rewrite (run_turn_raise _ _ _ ValueError _ _ Hn Hp
                 (parse_frame_short_line _ _ _ _ Hl Hpre Hs)).
Qed.

Lemma checksum_failure_is_skipped (noise frame_data rd line : bytes)
  (pre post : list bytes) (label value rest : bytes) (c : byte)
  (n k : nat) :
  Forall not_start noise -> Forall not_end frame_data ->
  frame_lines frame_data = pre ++ line :: post ->
  Forall (line_ok frame_data) pre ->
  bytes_split_n [SP] 2 line = [label; value; c :: rest] ->
  line_sum line <> Byte.to_N c ->
  run_turn (noise ++ x02 :: frame_data ++ x03 :: rd) n k
  = (Continue, rd, k).
Proof.
  intros Hn Hp Hl Hpre Ht Hne.
  assert (E : _parse_frame frame_data
              = Raise (TeleinfoException line (line_sum line) (Byte.to_N c)
                                         frame_data)).
  { apply parse_frame_raise. rewrite Hl.
    apply parse_lines_first_failure; [exact Hpre|].
    apply parse_line_raise. rewrite (check_line_three _ _ _ _ _ _ Ht).
    apply N.eqb_neq in Hne. now rewrite Hne. }
  now rewrite (run_turn_raise _ _ _ _ _ _ Hn Hp E).
Qed.

(** What a turn does with a complete frame. *)
Lemma framed_app (noise payload rest : bytes) :
  framed noise payload ++ rest = noise ++ x02 :: payload ++ x03 :: rest.
Proof.
  unfold framed. rewrite <- app_assoc. cbn [app].
  now rewrite <- app_assoc.
Qed.

Lemma run_turn_framed (noise payload rest : bytes) (n k : nat) :
  Forall not_start noise -> Forall not_end payload ->
  run_turn (framed noise payload ++ rest) n k
  = match _parse_frame payload with
    | Raise e =>
        (if is_TeleinfoException e then Continue else Escapes e, rest, k)
    | Ok frame =>
        match TeleinfoFrame.format_fields unicode_isspace unicode_todecimal
                int_max_str_digits frame with
        | Ok fields =>
            match write_ k (s_ "teleinfo") (utc_time n) fields None with
            | (Returned _, k') => (Written fields, rest, k')
            | (Propagated, k') => (WriteEscapes fields, rest, k')
            end
        | Raise e => (Escapes e, rest, k)
        end
    end.
Proof.
  intros Hn Hp. rewrite framed_app. unfold Teleinflux.run_turn.
  rewrite (read_frame_framed _ _ _ Hn Hp).
  destruct (_parse_frame payload) as [frame|e]; cbn [some_frame bind].
  - destruct (TeleinfoFrame.format_fields _ _ _ frame); reflexivity.
  - destruct (is_TeleinfoException e); reflexivity.
Qed.

(** A turn that does not end the loop has read at least two bytes. *)
Lemma run_turn_consumes (rd rd' : reader) (t : turn) (n k k' : nat) :
  run_turn rd n k = (t, rd', k') -> t <> Break ->
  List.length rd' + 2 <= List.length rd.
Proof.
  unfold Teleinflux.run_turn.
  destruct (read_frame rd) as [r rd0] eqn:E. intros H Ht.
  assert (Hr : r <> Ok None).
  { intros ->. inversion H; subst. now elim Ht. }
  assert (rd0 = rd').
  { destruct r as [[frame|]|e].
    - destruct (_ <- _ ;; _) in H; [|now inversion H].
      destruct (_write_measurement _ _ _ _ _ _ _) as [[ok|] k0] in H;
        now inversion H.
    - now elim Hr.
    - destruct (is_TeleinfoException e); now inversion H. }
  subst rd0. exact (read_frame_consumes _ _ _ E Hr).
Qed.

(** The loop always ends within the turns [run] gives it. *)
Lemma run_loop_ends (fuel : nat) (rd : reader) (n k : nat) :
  List.length rd < fuel -> exists ws e, run_loop fuel rd n k = (ws, Some e).
Proof.
  revert rd n k. induction fuel as [|fuel IH]; intros rd n k H; [lia|].
  cbn [Teleinflux.run_loop].
  destruct (run_turn rd n k) as [[t rd'] k'] eqn:E.
  destruct t as [| |fields|e|fields].
  - apply IH. apply run_turn_consumes in E; [lia | discriminate].
  - now exists [], Done.
  - apply run_turn_consumes in E; [|discriminate].
    destruct (IH rd' (S n) k') as (ws & e & ->); [lia|].
    now exists (fields :: ws), e.
  - now exists [], (Uncaught e).
  - now exists [fields], ClientError.
Qed.

(** The result of the loop does not depend on the turns it is given, once
    they are more than the bytes to read. *)
Lemma run_loop_fuel (fuel fuel' : nat) (rd : reader) (n k : nat) :
  List.length rd < fuel -> List.length rd < fuel' ->
  run_loop fuel rd n k = run_loop fuel' rd n k.
Proof.
  revert fuel' rd n k.
  induction fuel as [|fuel IH]; intros fuel' rd n k H H'; [lia|].
  destruct fuel' as [|fuel']; [lia|]. cbn [Teleinflux.run_loop].
  destruct (run_turn rd n k) as [[t rd'] k'] eqn:E.
  destruct t as [| |fields|e|fields]; try reflexivity.
  - apply run_turn_consumes in E; [|discriminate]. apply IH; lia.
  - apply run_turn_consumes in E; [|discriminate].
    rewrite (IH fuel' rd'); [reflexivity | lia | lia].
Qed.

(** The loop from any of its states, turn by turn. *)
Lemma run_loop_unfold (rd : reader) (n k : nat) :
  run_loop (S (List.length rd)) rd n k
  = match run_turn rd n k with
    | (Continue, rd', k') => run_loop (S (List.length rd')) rd' n k'
    | (Break, _, _) => ([], Some Done)
    | (Written fields, rd', k') =>
        let '(ws, e) := run_loop (S (List.length rd')) rd' (S n) k' in
        (fields :: ws, e)
    | (Escapes e, _, _) => ([], Some (Uncaught e))
    | (WriteEscapes fields, _, _) => ([fields], Some ClientError)
    end.
Proof.
  etransitivity; [cbn [Teleinflux.run_loop]; reflexivity|].
  destruct (run_turn rd n k) as [[t rd'] k'] eqn:E.
  destruct t as [| |fields|e|fields]; try reflexivity.
  - apply run_turn_consumes in E; [|discriminate].
    apply run_loop_fuel; lia.
  - apply run_turn_consumes in E; [|discriminate].
    rewrite (run_loop_fuel (List.length rd) (S (List.length rd')));
      [reflexivity | lia | lia].
Qed.

(** X2: on every finite input, and whatever the client does, the reading
    loop ends within the turns [run] gives it: either at ['Done'] or with
    an exception that leaves [run]. *)
Theorem run_ends (rd : reader) : exists ws e, run rd = (ws, Some e).
Proof.
  unfold Teleinflux.run. apply run_loop_ends. lia.
Qed.

End ReadingLoop.

(** ** Claims on the line parser *)

Section LineParserClaims.
Import TeleinfoReader Teleinflux.

(** C1: a frame with a line of fewer than three tokens should be discarded
    like a frame with a checksum mismatch, the loop going on.  The code does
    not do so: on the payload [ADCO 012345678901], one line of two tokens,
    [_parse_frame] raises the [ValueError] of the unpacking, which is no
    [TeleinfoException]; [run] does not catch it and ends without reading
    the valid frame that follows, whatever the client does.  After a frame
    with a wrong checksum byte it goes on: it hands the fields of the valid
    frame to [_write_measurement] and ends at ['Done'], unless the client
    raises an exception of its own. *)
Theorem malformed_line_escapes_the_loop :
  let malformed := b_ "ADCO 012345678901" in
  let mismatch := b_ "ADCO 012345678901 F" in
  let next_frame := x02 :: scenario_payload ++ [x03] in
  let fields :=
    [(s_ "ADCO", TeleinfoFrame.FStr (s_ "012345678901"));
     (s_ "HCHC", TeleinfoFrame.FInt 1234567)] in
  forall sp dec lim write_points attempts utc_time,
    short_line malformed
    /\ _parse_frame malformed = Raise ValueError
    /\ is_TeleinfoException ValueError = false
    /\ run sp dec lim write_points attempts utc_time
         (x02 :: malformed ++ x03 :: next_frame)
       = ([], Some (Uncaught ValueError))
    /\ run sp dec lim write_points attempts utc_time
         (x02 :: mismatch ++ x03 :: next_frame)
       = ([fields],
          Some (match fst (_write_measurement write_points attempts 0
                             (s_ "teleinfo") (utc_time 0) fields None) with
                | Returned _ => Done
                | Propagated => ClientError
                end))
    /\ (raises_server_errors_only write_points ->
        run sp dec lim write_points attempts utc_time
          (x02 :: mismatch ++ x03 :: next_frame)
        = ([fields], Some Done)).
Proof.
  intros malformed mismatch next_frame fields sp dec lim write_points
    attempts utc_time.
  assert (Hs : short_line malformed) by (unfold short_line; simpl; lia).
  assert (Hp : _parse_frame malformed = Raise ValueError).
  { apply (@parse_frame_short_line malformed [] [] malformed);
      [reflexivity | constructor | exact Hs]. }
  assert (Hend : Forall not_end malformed)
    by (repeat constructor; discriminate).
  assert (Hgoes :
    run sp dec lim write_points attempts utc_time
      (x02 :: mismatch ++ x03 :: next_frame)
    = ([fields],
       Some (match fst (_write_measurement write_points attempts 0
                          (s_ "teleinfo") (utc_time 0) fields None) with
             | Returned _ => Done
             | Propagated => ClientError
             end))).
  { assert (Hend' : Forall not_end mismatch)
      by (repeat constructor; discriminate).
    assert (Hend2 : Forall not_end scenario_payload)
      by (repeat constructor; discriminate).
    assert (Hm : exists e, _parse_frame mismatch = Raise e
                           /\ is_TeleinfoException e = true)
      by (eexists; split; [vm_compute; reflexivity | reflexivity]).
    destruct Hm as (e & Hm & He).
    pose proof (@run_turn_raise sp dec lim write_points attempts utc_time
                  [] mismatch next_frame e 0 0 (Forall_nil _) Hend' Hm)
      as R.
    cbn [app] in R. rewrite He in R.
    unfold run. rewrite run_loop_unfold, R.
    change next_frame with (framed [] scenario_payload ++ []).
    rewrite run_loop_unfold,
      (run_turn_framed sp dec lim write_points attempts utc_time
         [] scenario_payload [] 0 0 (Forall_nil _) Hend2).
    assert (Hparse : _parse_frame scenario_payload
                     = Ok (TeleinfoFrame.TeleinfoFrame
                             [(s_ "ADCO", b_ "012345678901");
                              (s_ "HCHC", b_ "001234567")]))
      by reflexivity.
    rewrite Hparse.
    assert (Hformat : TeleinfoFrame.format_fields sp dec lim
                        (TeleinfoFrame.TeleinfoFrame
                           [(s_ "ADCO", b_ "012345678901");
                            (s_ "HCHC", b_ "001234567")])
                      = Ok fields)
      by (destruct lim; vm_compute; reflexivity).
    rewrite Hformat.
    destruct (_write_measurement write_points attempts 0 (s_ "teleinfo")
                (utc_time 0) fields None) as [[ok|] k'];
      reflexivity. }
  split; [exact Hs|]. split; [exact Hp|]. split; [reflexivity|].
  split; [|split; [exact Hgoes|]].
  - pose proof (@run_turn_raise sp dec lim write_points attempts utc_time
                  [] malformed next_frame ValueError 0 0
                  (Forall_nil _) Hend Hp) as R.
    cbn [app] in R. unfold run. cbn [List.length Teleinflux.run_loop].
    now rewrite R.
  - intros Hc. rewrite Hgoes.
    destruct (write_measurement_returns write_points attempts 0
                (s_ "teleinfo") (utc_time 0) fields None Hc)
      as (ok & k' & ->).
    reflexivity.
Qed.

(** C2: parsing an empty payload, or one of white space only, does not
    return an empty record.  Trimming leaves no byte, splitting the empty
    byte string on CRLF gives one line, the empty one, and not zero lines;
    that line has fewer than three tokens, so the call raises and returns
    no record. *)
Theorem blank_payload_raises :
  forall frame_data : bytes,
    forallb bytes_isspace frame_data = true ->
    bytes_strip frame_data = []
    /\ frame_lines frame_data = [[]]
    /\ short_line []
    /\ exists e, _parse_frame frame_data = Raise e.
Proof.
  intros frame_data H. repeat split.
  - now apply bytes_strip_blank.
  - now apply frame_lines_blank.
  - unfold short_line. simpl. lia.
  - exists ValueError. now apply parse_frame_blank.
Qed.

Lemma blank_payload_raises_witness :
  forallb bytes_isspace [SP; CR; LF; x09] = true
  /\ frame_lines [SP; CR; LF; x09] = [[]]
  /\ exists e, _parse_frame [SP; CR; LF; x09] = Raise e.
Proof.
  assert (H : forallb bytes_isspace [SP; CR; LF; x09] = true)
    by reflexivity.
  destruct (blank_payload_raises [SP; CR; LF; x09] H) as (_ & Hl & _ & He).
  exact (conj H (conj Hl He)).
Defined.

Lemma empty_payload_is_no_empty_record :
  _parse_frame [] = Raise ValueError
  /\ _parse_frame [] <> Ok (TeleinfoFrame.TeleinfoFrame []).
Proof.
  assert (E : _parse_frame [] = Raise ValueError)
    by (now apply parse_frame_blank).
  split; [exact E | rewrite E; discriminate].
Qed.

(** C3: for a line that splits into three tokens, the third not empty, the
    checksum the parser computes is the sum of the values of all bytes of
    the line except the final two, masked with 0x3F, plus 0x20, and the
    line passes the control exactly when that value is the value of the
    first byte of the third token; that byte is the last byte of the line
    when the third token is one byte long. *)
Theorem checksum_control :
  forall (frame_data line label value rest : bytes) (c : byte),
    bytes_split_n [SP] 2 line = [label; value; c :: rest] ->
    line_sum line = spec_checksum line
    /\ (check_line frame_data line = Ok (label, value)
        <-> spec_checksum line = Byte.to_N c)
    /\ ((exists lv, check_line frame_data line = Ok lv)
        -> check_line frame_data line = Ok (label, value))
    /\ (rest = [] -> last line x00 = c).
Proof.
  intros frame_data line label value rest c H.
  pose proof (@check_line_three frame_data _ _ _ _ _ H) as E.
  rewrite <- line_sum_spec.
  split; [reflexivity|]. split; [|split].
  - rewrite E. split.
    + destruct (N.eqb_spec (line_sum line) (Byte.to_N c));
        [trivial | discriminate].
    + intros Hc. apply N.eqb_eq in Hc. now rewrite Hc.
  - rewrite E. destruct (line_sum line =? Byte.to_N c)%N;
      [reflexivity | intros [lv Hlv]; discriminate].
  - intros ->. rewrite (@split3_join _ _ _ _ H).
    change (label ++ SP :: value ++ [SP; c])
      with (label ++ (SP :: value ++ [SP]%list ++ [c])).
    rewrite (app_assoc value), app_comm_cons, app_assoc.
    apply last_last.
Qed.

Lemma checksum_control_witness :
  bytes_split_n [SP] 2 line_ADCO
  = [b_ "ADCO"; b_ "012345678901"; [x45]]
  /\ spec_checksum line_ADCO = Byte.to_N x45
  /\ check_line [] line_ADCO = Ok (b_ "ADCO", b_ "012345678901")
  /\ last line_ADCO x00 = x45.
Proof.
  assert (H : bytes_split_n [SP] 2 line_ADCO
              = [b_ "ADCO"; b_ "012345678901"; [x45]]) by reflexivity.
  destruct (@checksum_control [] line_ADCO _ _ _ _ H) as (_ & Hiff & _ & Hl).
  assert (Hc : spec_checksum line_ADCO = Byte.to_N x45) by reflexivity.
  exact (conj H (conj Hc (conj (proj2 Hiff Hc) (Hl eq_refl)))).
Defined.

Lemma checksum_is_compared_with_first_byte :
  let line := b_ "A B #Y" in
  bytes_split_n [SP] 2 line = [b_ "A"; b_ "B"; b_ "#Y"]
  /\ check_line [] line = Ok (b_ "A", b_ "B")
  /\ spec_checksum line = 35%N
  /\ Byte.to_N (last line x00) = 89%N
  /\ spec_checksum line <> Byte.to_N (last line x00).
Proof.
  intros line. subst line.
  split; [reflexivity|].
  split; [|split; [reflexivity | split; [reflexivity | discriminate]]].
  rewrite (@check_line_three [] (b_ "A B #Y") (b_ "A") (b_ "B") (b_ "Y") x23
             eq_refl).
  reflexivity.
Qed.

(** C4: when a line of the payload has three tokens and a computed checksum
    that differs from the first byte of the third, parsing returns no
    record: it raises.  When every line before it goes through, what is
    raised is the [TeleinfoException] that carries this line, the computed
    value, the value found and the frame data; the entries of the earlier
    lines are in no result. *)
Theorem checksum_failure_aborts_frame :
  forall (frame_data line label value rest : bytes) (pre post : list bytes)
         (c : byte),
    frame_lines frame_data = pre ++ line :: post ->
    bytes_split_n [SP] 2 line = [label; value; c :: rest] ->
    line_sum line <> Byte.to_N c ->
    (exists e, _parse_frame frame_data = Raise e)
    /\ (Forall (line_ok frame_data) pre ->
        _parse_frame frame_data
        = Raise (TeleinfoException line (line_sum line) (Byte.to_N c)
                                   frame_data)).
Proof.
  intros frame_data line label value rest pre post c Hl Ht Hne.
  assert (E : parse_line frame_data line
              = Raise (TeleinfoException line (line_sum line) (Byte.to_N c)
                                         frame_data)).
  { apply parse_line_raise. rewrite (@check_line_three frame_data _ _ _ _ _ Ht).
    apply N.eqb_neq in Hne. now rewrite Hne. }
  split.
  - assert (Hin : In line (frame_lines frame_data))
      by (rewrite Hl; apply in_or_app; right; now left).
    destruct (@parse_lines_any_failure frame_data _ line _ [] Hin E)
      as [e' He'].
    exists e'. now apply parse_frame_raise.
  - intros Hpre. apply parse_frame_raise. rewrite Hl.
    now apply parse_lines_first_failure.
Qed.

Lemma checksum_failure_aborts_frame_witness :
  let bad := b_ "HCHC 001234567 8" in
  let frame_data := line_ADCO ++ [CR; LF] ++ bad in
  frame_lines frame_data = [line_ADCO] ++ bad :: []
  /\ bytes_split_n [SP] 2 bad = [b_ "HCHC"; b_ "001234567"; [x38]]
  /\ line_sum bad <> Byte.to_N x38
  /\ Forall (line_ok frame_data) [line_ADCO]
  /\ _parse_frame frame_data
     = Raise (TeleinfoException bad 34 56 frame_data).
Proof.
  intros bad frame_data.
  assert (H1 : frame_lines frame_data = [line_ADCO] ++ bad :: [])
    by reflexivity.
  assert (H2 : bytes_split_n [SP] 2 bad
               = [b_ "HCHC"; b_ "001234567"; [x38]]) by reflexivity.
  assert (H3 : line_sum bad <> Byte.to_N x38) by discriminate.
  assert (H4 : Forall (line_ok frame_data) [line_ADCO]).
  { repeat constructor. eexists. reflexivity. }
  exact (conj H1 (conj H2 (conj H3 (conj H4
           (proj2 (@checksum_failure_aborts_frame _ _ _ _ _ _ _ _ H1 H2 H3)
                  H4))))).
Defined.

Lemma earlier_short_line_hides_checksum_failure :
  let frame_data := b_ "X" ++ [CR; LF] ++ b_ "A B Z" in
  frame_lines frame_data = [b_ "X"; b_ "A B Z"]
  /\ bytes_split_n [SP] 2 (b_ "A B Z") = [b_ "A"; b_ "B"; b_ "Z"]
  /\ line_sum (b_ "A B Z") = 67%N
  /\ Byte.to_N x5a = 90%N
  /\ line_sum (b_ "A B Z") <> Byte.to_N x5a
  /\ is_TeleinfoException ValueError = false
  /\ _parse_frame frame_data = Raise ValueError.
Proof.
  intros frame_data. subst frame_data.
  do 4 (split; [vm_compute; reflexivity|]).
  split; [discriminate|]. split; [reflexivity|].
  apply (@parse_frame_short_line _ [] [b_ "A B Z"] (b_ "X"));
    [reflexivity | constructor | unfold short_line; simpl; lia].
Qed.

End LineParserClaims.

(** ** Claims on the record *)

Section RecordClaims.
Import TeleinfoReader.

Lemma parse_line_binding (frame_data line : bytes) (kv : str * bytes) :
  parse_line frame_data line = Ok kv -> line_binding line = Some kv.
Proof.
  unfold parse_line, check_line, line_binding, bytes_decode.
  destruct (bytes_split_n [SP] 2 line) as [|label [|value [|c [|x l]]]];
    try discriminate.
  destruct c as [|c0 c]; [discriminate|]. simpl.
  destruct (negb _); [discriminate|]. simpl.
  destruct (utf8_decode label) as [key|]; [|discriminate].
  simpl. now intros [= <-].
Qed.

Lemma parse_lines_lookup (frame_data : bytes) (lines : list bytes)
  (d d' : dict bytes) (key : str) :
  parse_lines frame_data lines d = Ok d' ->
  dict_get d' key = match last_value key lines with
                    | Some v => Some v
                    | None => dict_get d key
                    end.
Proof.
  revert d. induction lines as [|line lines IH]; intros d; simpl.
  - now intros [= <-].
  - destruct (parse_line frame_data line) as [[k v]|e] eqn:E;
      [|discriminate].
    simpl. intros H. rewrite (IH _ H), (parse_line_binding _ _ _ E).
    destruct (last_value key lines); [reflexivity|].
    rewrite dict_get_set. destruct (str_eqb key k); reflexivity.
Qed.

Lemma parse_lines_NoDup (frame_data : bytes) (lines : list bytes)
  (d d' : dict bytes) :
  parse_lines frame_data lines d = Ok d' ->
  NoDup (dict_keys d) -> NoDup (dict_keys d').
Proof.
  revert d. induction lines as [|line lines IH]; intros d; simpl.
  - now intros [= <-].
  - destruct (parse_line frame_data line) as [[k v]|e]; [|discriminate].
    simpl. intros H Hd. apply (IH _ H). now apply dict_set_NoDup.
Qed.

Lemma parse_lines_all_ok (frame_data : bytes) (lines : list bytes)
  (d d' : dict bytes) :
  parse_lines frame_data lines d = Ok d' ->
  Forall (line_ok frame_data) lines.
Proof.
  revert d. induction lines as [|line lines IH]; intros d; simpl.
  - constructor.
  - destruct (parse_line frame_data line) as [kv|e] eqn:E; [|discriminate].
    simpl. intros H. constructor; [now exists kv | exact (IH _ H)].
Qed.

(** C9: in the record of a parsed payload every label is the key of one
    entry, and the value stored for a label is the value of the last line
    of the payload that carries it (all lines of a parsed payload are
    valid). *)
Theorem record_keeps_last_value :
  forall (frame_data : bytes) (frame : TeleinfoFrame.t),
    _parse_frame frame_data = Ok frame ->
    NoDup (dict_keys (TeleinfoFrame._raw_data frame))
    /\ Forall (line_ok frame_data) (frame_lines frame_data)
    /\ forall key : str,
         dict_get (TeleinfoFrame._raw_data frame) key
         = last_value key (frame_lines frame_data).
Proof.
  intros frame_data frame. unfold _parse_frame.
  destruct (parse_lines frame_data (frame_lines frame_data) []) as [d|e]
    eqn:E; [|discriminate].
  simpl. intros [= <-]. simpl. split; [|split].
  - apply (parse_lines_NoDup _ _ _ _ E). constructor.
  - exact (parse_lines_all_ok _ _ _ _ E).
  - intros key. rewrite (parse_lines_lookup _ _ _ _ key E).
    now destruct (last_value key (frame_lines frame_data)).
Qed.

Lemma record_keeps_last_value_witness :
  let frame_data :=
    b_ "PAPP 00750 -" ++ [CR; LF] ++ line_ADCO ++ [CR; LF]
    ++ b_ "PAPP 00760 ." in
  let frame :=
    TeleinfoFrame.TeleinfoFrame
      [(s_ "PAPP", b_ "00760"); (s_ "ADCO", b_ "012345678901")] in
  _parse_frame frame_data = Ok frame
  /\ NoDup (dict_keys (TeleinfoFrame._raw_data frame))
  /\ dict_get (TeleinfoFrame._raw_data frame) (s_ "PAPP")
     = last_value (s_ "PAPP") (frame_lines frame_data)
  /\ last_value (s_ "PAPP") (frame_lines frame_data) = Some (b_ "00760").
Proof.
  intros frame_data frame.
  assert (H : _parse_frame frame_data = Ok frame) by reflexivity.
  destruct (record_keeps_last_value frame_data frame H) as (Hnd & _ & Hget).
  exact (conj H (conj Hnd (conj (Hget (s_ "PAPP")) eq_refl))).
Defined.

End RecordClaims.

(** ** Text coercions *)

Lemma forallb_repeat (c : N) (p : str) :
  forallb (fun x => x =? c)%N p = true -> p = repeat c (List.length p).
Proof.
  induction p as [|x p IH]; simpl; [reflexivity|].
  rewrite andb_true_iff, N.eqb_eq. intros [-> H]. now rewrite <- IH.
Qed.

(** [rstrip('.')] removes a run of dots at the end, and all of it. *)
Lemma rstrip_dot_spec (text : str) :
  (exists n, text = TeleinfoFrame.rstrip_dot text ++ repeat 46%N n)
  /\ (forall t, TeleinfoFrame.rstrip_dot text <> t ++ [46%N]).
Proof.
  unfold TeleinfoFrame.rstrip_dot, rstrip_with.
  destruct (lstrip_with_spec N (fun c => (c =? 46)%N) (rev text))
    as (p & E & Hp & Hh).
  split.
  - exists (List.length (rev p)).
    rewrite <- (forallb_repeat 46%N (rev p)).
    + rewrite <- rev_app_distr, <- E. symmetry. apply rev_involutive.
    + rewrite forallb_forall in *. intros x Hx. apply Hp.
      now apply in_rev.
  - intros t Ht.
    assert (E' : lstrip_with (fun c => (c =? 46)%N) (rev text)
                 = 46%N :: rev t).
    { rewrite <- (rev_involutive (lstrip_with _ (rev text))), Ht.
      now rewrite rev_app_distr. }
    specialize (Hh _ _ E'). discriminate.
Qed.

Section IntFacts.
Variable unicode_isspace : N -> bool.
Variable unicode_todecimal : N -> option N.
Variable int_max_str_digits : option nat.

Local Abbreviation int_ :=
  (py_int unicode_isspace unicode_todecimal int_max_str_digits).

(** [int] raises nothing but [ValueError]. *)
Lemma py_int_raises_ValueError (text : str) (e : exn) :
  int_ text = Raise e -> e = ValueError.
Proof.
  unfold py_int.
  destruct (to_ascii _ _ text) as [s|]; [|now intros [= <-]].
  destruct (int_signed _ _); [discriminate | now intros [= <-]].
Qed.

Lemma digit_char (d : N) :
  (d < 10)%N ->
  is_digit (48 + d) = true /\ c_isspace (48 + d) = false
  /\ (48 + d =? 43)%N = false /\ (48 + d =? 45)%N = false
  /\ (48 + d <? 128)%N = true /\ (48 + d - 48 = d)%N.
Proof.
  intros H. unfold is_digit, c_isspace. repeat split.
  - apply andb_true_iff. split; apply N.leb_le; lia.
  - apply orb_false_iff. split; [|apply N.eqb_neq; lia].
    apply andb_false_iff. right. apply N.leb_gt. lia.
  - apply N.eqb_neq. lia.
  - apply N.eqb_neq. lia.
  - apply N.ltb_lt. lia.
  - lia.
Qed.

Lemma scan_digits_digits (digits : list N) (acc : N) (n : nat) :
  Forall (fun d => d < 10)%N digits ->
  scan_digits (digits_text digits) acc n
  = Some (fold_left (fun a d => a * 10 + d)%N digits acc,
          n + List.length digits, []).
Proof.
  intros H. revert acc n.
  induction H as [|d digits Hd _ IH]; intros acc n;
    cbn [digits_text map scan_digits fold_left List.length].
  - now rewrite Nat.add_0_r.
  - destruct (digit_char d Hd) as (-> & _ & _ & _ & _ & ->).
    change (map (N.add 48) digits) with (digits_text digits).
    rewrite IH. now rewrite Nat.add_succ_r.
Qed.

Lemma is_ascii_digits (digits : list N) :
  Forall (fun d => d < 10)%N digits -> is_ascii (digits_text digits) = true.
Proof.
  induction 1 as [|d digits Hd _ IH]; [reflexivity|].
  cbn [digits_text map is_ascii forallb].
  destruct (digit_char d Hd) as (_ & _ & _ & _ & -> & _). exact IH.
Qed.

Lemma over_limit_small (n : nat) :
  n <= 640 -> over_limit int_max_str_digits n = false.
Proof.
  intros H. unfold over_limit. destruct int_max_str_digits as [k|];
    [|reflexivity].
  apply Nat.ltb_ge. lia.
Qed.

(** On a text of decimal digits, at most 640 of them, [int] returns the
    number they write in base 10. *)
Lemma py_int_digits (digits : list N) :
  digits <> [] -> Forall (fun d => d < 10)%N digits ->
  List.length digits <= 640 ->
  int_ (digits_text digits) = Ok (Z.of_N (decimal_value digits)).
Proof.
  intros Hne Hd Hlen. unfold py_int, to_ascii.
  rewrite (is_ascii_digits _ Hd).
  destruct digits as [|d digits]; [now elim Hne|].
  inversion Hd as [|? ? Hd0 Hds]; subst.
  destruct (digit_char d Hd0) as (Hdig & Hsp & H43 & H45 & _ & Hsub).
  cbn [digits_text map lstrip_with]. rewrite Hsp.
  cbn [int_signed]. rewrite H43, H45.
  cbn [int_unsigned]. rewrite Hdig, Hsub.
  change (map (N.add 48) digits) with (digits_text digits).
  rewrite (scan_digits_digits _ _ _ Hds).
  cbn [forallb andb]. rewrite over_limit_small by (simpl in Hlen; lia).
  reflexivity.
Qed.

End IntFacts.

(** ** Claims on the typed accessor *)

Section AccessorClaims.
Import TeleinfoFrame.

(** The format names of [_FIELD_FORMAT], with the default ['str'], are the
    tags of the type table of the specification. *)
Lemma field_format_table (key : str) :
  dict_get_default _FIELD_FORMAT key (s_ "str")
  = match field_type key with
    | String_tag => s_ "str"
    | Integer_tag => s_ "int"
    end.
Proof.
  unfold field_type, dict_get_default, _FIELD_FORMAT, FieldTypeTable.
  cbn [dict_get].
  repeat (destruct (str_eqb key _); [reflexivity|]).
  reflexivity.
Qed.

(** [get] always finds the formatter of the key's tag, and hands it the raw
    value of the key, or the empty text when the key is missing. *)
Lemma get_dispatch (sp : N -> bool) (dec : N -> option N) (lim : option nat)
  (self : t) (key : str) :
  get sp dec lim self key
  = formatter_of sp dec lim (field_type key)
      (match dict_get (_raw_data self) key with
       | Some v => RawBytes v
       | None => RawStr []
       end).
Proof.
  unfold get. rewrite field_format_table.
  destruct (field_type key); reflexivity.
Qed.

(** C8: for a label present in the record, [get] coerces its raw value by
    the type table, a label outside the table being a string: a string is
    the decoded text without the dots at its end, an integer is [int] of the
    decoded text, which raises nothing but [ValueError] and returns the
    base-10 value of a text of digits.  ADCO with [012345678901.] gives the
    text [012345678901], HCHC with [001234567] the integer 1234567, and
    HCHC with [12.5] raises [ValueError]. *)
Theorem get_coerces_by_type_table :
  forall (sp : N -> bool) (dec : N -> option N) (lim : option nat)
         (self : t) (key : str) (value : bytes),
    dict_get (_raw_data self) key = Some value ->
    get sp dec lim self key
    = (text <- bytes_decode value ;;
       match field_type key with
       | String_tag => Ok (FStr (rstrip_dot text))
       | Integer_tag => z <- py_int sp dec lim text ;; Ok (FInt z)
       end)
    /\ (forall text : str,
          (exists n, text = rstrip_dot text ++ repeat 46%N n)
          /\ (forall t', rstrip_dot text <> t' ++ [46%N]))
    /\ (forall (text : str) (e : exn),
          py_int sp dec lim text = Raise e -> e = ValueError)
    /\ (forall digits : list N,
          digits <> [] -> Forall (fun d => d < 10)%N digits ->
          List.length digits <= 640 ->
          py_int sp dec lim (digits_text digits)
          = Ok (Z.of_N (decimal_value digits)))
    /\ (key = s_ "ADCO" -> value = b_ "012345678901." ->
        get sp dec lim self key = Ok (FStr (s_ "012345678901")))
    /\ (key = s_ "HCHC" -> value = b_ "001234567" ->
        get sp dec lim self key = Ok (FInt 1234567))
    /\ (key = s_ "HCHC" -> value = b_ "12.5" ->
        get sp dec lim self key = Raise ValueError).
Proof.
  intros sp dec lim self key value H.
  assert (E : get sp dec lim self key
              = (text <- bytes_decode value ;;
                 match field_type key with
                 | String_tag => Ok (FStr (rstrip_dot text))
                 | Integer_tag => z <- py_int sp dec lim text ;; Ok (FInt z)
                 end)).
  { rewrite get_dispatch, H. unfold formatter_of.
    destruct (field_type key); unfold _format_str, _format_int, decode;
      destruct (bytes_decode value); reflexivity. }
  split; [exact E|]. split; [exact rstrip_dot_spec|].
  split; [exact (py_int_raises_ValueError sp dec lim)|].
  split; [exact (py_int_digits sp dec lim)|].
  rewrite E. split; [|split]; intros -> ->.
  - reflexivity.
  - change (bytes_decode (b_ "001234567"))
      with (Ok (A := str) (digits_text [0; 0; 1; 2; 3; 4; 5; 6; 7]%N)).
    cbn [bind]. change (field_type (s_ "HCHC")) with Integer_tag.
    cbv iota. rewrite py_int_digits;
      [reflexivity | discriminate | repeat constructor | simpl; lia].
  - destruct lim; reflexivity.
Qed.

Lemma get_coerces_by_type_table_witness :
  let self :=
    TeleinfoFrame
      [(s_ "ADCO", b_ "012345678901."); (s_ "HCHC", b_ "001234567")] in
  dict_get (_raw_data self) (s_ "HCHC") = Some (b_ "001234567")
  /\ dict_get (_raw_data self) (s_ "ADCO") = Some (b_ "012345678901.")
  /\ get unicode14_isspace unicode14_todecimal default_max_str_digits
         self (s_ "HCHC") = Ok (FInt 1234567)
  /\ get unicode14_isspace unicode14_todecimal default_max_str_digits
         self (s_ "ADCO") = Ok (FStr (s_ "012345678901")).
Proof.
  intros self.
  assert (H1 : dict_get (_raw_data self) (s_ "HCHC")
               = Some (b_ "001234567")) by reflexivity.
  assert (H2 : dict_get (_raw_data self) (s_ "ADCO")
               = Some (b_ "012345678901.")) by reflexivity.
  destruct (get_coerces_by_type_table unicode14_isspace unicode14_todecimal
              default_max_str_digits self _ _ H1)
    as (_ & _ & _ & _ & _ & Hint & _).
  destruct (get_coerces_by_type_table unicode14_isspace unicode14_todecimal
              default_max_str_digits self _ _ H2)
    as (_ & _ & _ & _ & Hstr & _).
  exact (conj H1 (conj H2 (conj (Hint eq_refl eq_refl)
                                (Hstr eq_refl eq_refl)))).
Defined.

(** C10: for a label that is not in the record, [get] raises: the value it
    hands to the formatter is the empty text, which has no [decode], so the
    formatter of a string and the formatter of an integer both raise
    [AttributeError], whatever text they are handed; no default value and
    no empty value is returned. *)
Theorem get_missing_label_raises :
  forall (sp : N -> bool) (dec : N -> option N) (lim : option nat)
         (self : t) (key : str),
    dict_get (_raw_data self) key = None ->
    get sp dec lim self key
    = formatter_of sp dec lim (field_type key) (RawStr [])
    /\ get sp dec lim self key = Raise AttributeError
    /\ (forall text : str, _format_str (RawStr text) = Raise AttributeError)
    /\ (forall text : str,
          _format_int sp dec lim (RawStr text) = Raise AttributeError).
Proof.
  intros sp dec lim self key H.
  assert (E : get sp dec lim self key
              = formatter_of sp dec lim (field_type key) (RawStr [])).
  { now rewrite get_dispatch, H. }
  split; [exact E|]. split.
  - rewrite E. now destruct (field_type key).
  - split; intros text; reflexivity.
Qed.

Lemma get_missing_label_raises_witness :
  let self := TeleinfoFrame [(s_ "ADCO", b_ "012345678901.")] in
  dict_get (_raw_data self) (s_ "HCHC") = None
  /\ dict_get (_raw_data self) (s_ "PTEC") = None
  /\ get unicode14_isspace unicode14_todecimal default_max_str_digits
         self (s_ "HCHC") = Raise AttributeError
  /\ get unicode14_isspace unicode14_todecimal default_max_str_digits
         self (s_ "PTEC") = Raise AttributeError.
Proof.
  intros self.
  assert (H1 : dict_get (_raw_data self) (s_ "HCHC") = None)
    by reflexivity.
  assert (H2 : dict_get (_raw_data self) (s_ "PTEC") = None)
    by reflexivity.
  exact (conj H1 (conj H2 (conj
    (proj1 (proj2 (get_missing_label_raises unicode14_isspace
                     unicode14_todecimal default_max_str_digits self _ H1)))
    (proj1 (proj2 (get_missing_label_raises unicode14_isspace
                     unicode14_todecimal default_max_str_digits self _ H2)))))).
Defined.

End AccessorClaims.

(** ** Further properties of the specification *)

Section Further.
Import TeleinfoReader.

(** The scenario of the specification.  The stream of the two lines
    between the markers is read as one frame, with the raw values of ADCO
    and HCHC, and its fields are the text [012345678901] and the integer
    1234567; the stream is read to its end. *)
Theorem scenario_is_parsed :
  forall (sp : N -> bool) (dec : N -> option N) (lim : option nat),
    let frame :=
      TeleinfoFrame.TeleinfoFrame
        [(s_ "ADCO", b_ "012345678901"); (s_ "HCHC", b_ "001234567")] in
    read_frame (x02 :: scenario_payload ++ [x03]) = (Ok (Some frame), [])
    /\ TeleinfoFrame.format_fields sp dec lim frame
       = Ok [(s_ "ADCO", TeleinfoFrame.FStr (s_ "012345678901"));
             (s_ "HCHC", TeleinfoFrame.FInt 1234567)].
Proof.
  intros sp dec lim frame. split.
  - assert (Hp : Forall not_end scenario_payload)
      by (repeat constructor; discriminate).
    exact (read_frame_framed [] scenario_payload [] (Forall_nil _) Hp).
  - destruct lim; vm_compute; reflexivity.
Qed.

(** X3: two frames that follow each other in the stream, each after noise
    without a start marker, are returned by two calls in their order, each
    parsed from its own payload, and the second call starts where the first
    one stopped. *)
Theorem frames_are_read_in_order :
  forall (noise1 payload1 noise2 payload2 rd : bytes),
    Forall not_start noise1 -> Forall not_end payload1 ->
    Forall not_start noise2 -> Forall not_end payload2 ->
    let rest := noise2 ++ x02 :: payload2 ++ x03 :: rd in
    read_frame (noise1 ++ x02 :: payload1 ++ x03 :: rest)
    = (some_frame (_parse_frame payload1), rest)
    /\ read_frame rest = (some_frame (_parse_frame payload2), rd).
Proof.
  intros noise1 payload1 noise2 payload2 rd Hn1 Hp1 Hn2 Hp2 rest.
  split; [|unfold rest]; now apply read_frame_framed.
Qed.

Lemma frames_are_read_in_order_witness :
  let second := b_ "PAPP 00750 -" in
  Forall not_start [x41] /\ Forall not_end scenario_payload
  /\ Forall not_start [CR; x03] /\ Forall not_end second
  /\ read_frame ([x41] ++ x02 :: scenario_payload
                 ++ x03 :: [CR; x03] ++ x02 :: second ++ x03 :: [x42])
     = (some_frame (_parse_frame scenario_payload),
        [CR; x03] ++ x02 :: second ++ x03 :: [x42])
  /\ read_frame ([CR; x03] ++ x02 :: second ++ x03 :: [x42])
     = (Ok (Some (TeleinfoFrame.TeleinfoFrame [(s_ "PAPP", b_ "00750")])),
        [x42]).
Proof.
  intros second.
  assert (H1 : Forall not_start [x41]) by (repeat constructor; discriminate).
  assert (H2 : Forall not_end scenario_payload)
    by (repeat constructor; discriminate).
  assert (H3 : Forall not_start [CR; x03])
    by (repeat constructor; discriminate).
  assert (H4 : Forall not_end second) by (repeat constructor; discriminate).
  exact (conj H1 (conj H2 (conj H3 (conj H4
           (frames_are_read_in_order _ _ _ _ [x42] H1 H2 H3 H4))))).
Defined.

Lemma slice_0_m2_trailer (body : bytes) (x y : byte) :
  slice_0_m2 (body ++ [x; y]) = body.
Proof.
  rewrite slice_0_m2_removelast.
  change (body ++ [x; y]) with (body ++ [x] ++ [y]).
  now rewrite app_assoc, !removelast_last.
Qed.

(** X4: a well-formed line, a label and a value without space and one
    checksum byte, passes the control exactly when that byte is the
    checksum of the label, the space and the value; with any other byte in
    its place the control raises the [TeleinfoException] of the line. *)
Theorem wellformed_line_control :
  forall (frame_data label value : bytes) (c c' : byte),
    ~ In SP label -> ~ In SP value ->
    let body := label ++ SP :: value in
    let expected := (N.land (py_sum (map Byte.to_N body)) 0x3F + 0x20)%N in
    line_sum (body ++ [SP; c]) = expected
    /\ (check_line frame_data (body ++ [SP; c]) = Ok (label, value)
        <-> Byte.to_N c = expected)
    /\ (Byte.to_N c = expected -> c' <> c ->
        check_line frame_data (body ++ [SP; c'])
        = Raise (TeleinfoException (body ++ [SP; c']) expected
                                   (Byte.to_N c') frame_data)).
Proof.
  intros frame_data label value c c' Hl Hv body expected.
  assert (Hs : forall x, line_sum (body ++ [SP; x]) = expected).
  { intros x. unfold line_sum. now rewrite slice_0_m2_trailer. }
  assert (Ht : forall x, bytes_split_n [SP] 2 (body ++ [SP; x])
                         = [label; value; [x]]).
  { intros x. apply split3_iff. unfold body.
    rewrite <- app_assoc. now repeat split. }
  split; [apply Hs|]. split; [split|].
  - rewrite (check_line_three frame_data _ _ _ _ _ (Ht c)), Hs.
    destruct (N.eqb_spec expected (Byte.to_N c)); [auto | discriminate].
  - intros E. rewrite (check_line_three frame_data _ _ _ _ _ (Ht c)), Hs.
    now rewrite E, N.eqb_refl.
  - intros E Hc.
    rewrite (check_line_three frame_data _ _ _ _ _ (Ht c')), Hs.
    destruct (N.eqb_spec expected (Byte.to_N c')) as [E'|]; [|reflexivity].
    elim Hc. apply to_N_inj. congruence.
Qed.

Lemma wellformed_line_control_witness :
  ~ In SP (b_ "ADCO") /\ ~ In SP (b_ "012345678901")
  /\ check_line [] line_ADCO = Ok (b_ "ADCO", b_ "012345678901")
  /\ check_line [] (b_ "ADCO 012345678901 F")
     = Raise (TeleinfoException (b_ "ADCO 012345678901 F") 69 70 []).
Proof.
  assert (H1 : ~ In SP (b_ "ADCO"))
    by (intros H; repeat (destruct H as [H|H]; [discriminate|]); exact H).
  assert (H2 : ~ In SP (b_ "012345678901"))
    by (intros H; repeat (destruct H as [H|H]; [discriminate|]); exact H).
  destruct (wellformed_line_control [] _ _ x45 x46 H1 H2) as (_ & Hiff & Hne).
  split; [exact H1 | split; [exact H2 | split]].
  - exact (proj2 Hiff eq_refl).
  - apply (Hne eq_refl). discriminate.
Defined.

End Further.

(** ** Encoding and decoding *)

Lemma to_N_byte_of_N (n : N) : (n < 256)%N -> Byte.to_N (byte_of_N n) = n.
Proof.
  intros H. unfold byte_of_N. destruct (Byte.of_N n) as [b|] eqn:E.
  - now apply Byte.to_of_N.
  - apply Byte.of_N_None_iff in E. lia.
Qed.

(** One step of the decoder. *)
Lemma utf8_decode_cons (c0 : byte) (r : bytes) :
  utf8_decode (c0 :: r)
  = let n0 := Byte.to_N c0 in
    let '(lo, hi) := second_range n0 in
    if (n0 <? 0x80)%N then
      option_map (cons n0) (utf8_decode r)
    else if in_range 0xC2 0xDF c0 then
      match r with
      | c1 :: r1 =>
          if in_range lo hi c1 then
            option_map (cons ((n0 - 0xC0) * 64 + cont_bits c1)%N)
                       (utf8_decode r1)
          else None
      | _ => None
      end
    else if in_range 0xE0 0xEF c0 then
      match r with
      | c1 :: c2 :: r2 =>
          if in_range lo hi c1 && in_range 0x80 0xBF c2 then
            option_map
              (cons ((n0 - 0xE0) * 4096 + cont_bits c1 * 64 + cont_bits c2)%N)
              (utf8_decode r2)
          else None
      | _ => None
      end
    else if in_range 0xF0 0xF4 c0 then
      match r with
      | c1 :: c2 :: c3 :: r3 =>
          if in_range lo hi c1 && in_range 0x80 0xBF c2
             && in_range 0x80 0xBF c3 then
            option_map
              (cons ((n0 - 0xF0) * 262144 + cont_bits c1 * 4096
                     + cont_bits c2 * 64 + cont_bits c3)%N)
              (utf8_decode r3)
          else None
      | _ => None
      end
    else None.
Proof. destruct r as [|c1 [|c2 [|c3 r]]]; reflexivity. Qed.

(** The decoder on a first byte below 0x80, and on well-formed sequences of
    two, three and four bytes. *)
Lemma utf8_decode_1 (c0 : byte) (r : bytes) :
  (Byte.to_N c0 < 0x80)%N ->
  utf8_decode (c0 :: r) = option_map (cons (Byte.to_N c0)) (utf8_decode r).
Proof. intros H. rewrite utf8_decode_cons; unfold second_range, in_range;
    cbv beta iota zeta; decide_tests. reflexivity. Qed.

Lemma utf8_decode_2 (c0 c1 : byte) (r : bytes) :
  (0xC2 <= Byte.to_N c0 <= 0xDF)%N -> (0x80 <= Byte.to_N c1 <= 0xBF)%N ->
  utf8_decode (c0 :: c1 :: r)
  = option_map (cons ((Byte.to_N c0 - 0xC0) * 64 + cont_bits c1)%N)
               (utf8_decode r).
Proof. intros H0 H1. rewrite utf8_decode_cons; unfold second_range, in_range;
    cbv beta iota zeta; decide_tests. reflexivity. Qed.

Lemma utf8_decode_3 (c0 c1 c2 : byte) (r : bytes) :
  (0xE0 <= Byte.to_N c0 <= 0xEF)%N ->
  (0x80 <= Byte.to_N c1 <= 0xBF)%N ->
  (Byte.to_N c0 = 0xE0 -> 0xA0 <= Byte.to_N c1)%N ->
  (Byte.to_N c0 = 0xED -> Byte.to_N c1 <= 0x9F)%N ->
  (0x80 <= Byte.to_N c2 <= 0xBF)%N ->
  utf8_decode (c0 :: c1 :: c2 :: r)
  = option_map
      (cons ((Byte.to_N c0 - 0xE0) * 4096 + cont_bits c1 * 64
             + cont_bits c2)%N)
      (utf8_decode r).
Proof.
  intros H0 H1 HE0 HED H2.
  destruct (N.eq_dec (Byte.to_N c0) 0xE0) as [E|E];
    [specialize (HE0 E) | destruct (N.eq_dec (Byte.to_N c0) 0xED) as [E'|E'];
                          [specialize (HED E') | ]];
    rewrite utf8_decode_cons; unfold second_range, in_range;
    cbv beta iota zeta; decide_tests; reflexivity.
Qed.

Lemma utf8_decode_4 (c0 c1 c2 c3 : byte) (r : bytes) :
  (0xF0 <= Byte.to_N c0 <= 0xF4)%N ->
  (0x80 <= Byte.to_N c1 <= 0xBF)%N ->
  (Byte.to_N c0 = 0xF0 -> 0x90 <= Byte.to_N c1)%N ->
  (Byte.to_N c0 = 0xF4 -> Byte.to_N c1 <= 0x8F)%N ->
  (0x80 <= Byte.to_N c2 <= 0xBF)%N -> (0x80 <= Byte.to_N c3 <= 0xBF)%N ->
  utf8_decode (c0 :: c1 :: c2 :: c3 :: r)
  = option_map
      (cons ((Byte.to_N c0 - 0xF0) * 262144 + cont_bits c1 * 4096
             + cont_bits c2 * 64 + cont_bits c3)%N)
      (utf8_decode r).
Proof.
  intros H0 H1 HF0 HF4 H2 H3.
  destruct (N.eq_dec (Byte.to_N c0) 0xF0) as [E|E];
    [specialize (HF0 E) | destruct (N.eq_dec (Byte.to_N c0) 0xF4) as [E'|E'];
                          [specialize (HF4 E') | ]];
    rewrite utf8_decode_cons; unfold second_range, in_range;
    cbv beta iota zeta; decide_tests; reflexivity.
Qed.

Lemma div64 (c : N) :
  exists q r, (c = 64 * q + r /\ r < 64 /\ c / 64 = q /\ c mod 64 = r)%N.
Proof.
  exists (c / 64)%N, (c mod 64)%N. repeat split.
  - apply N.div_mod. discriminate.
  - apply N.mod_lt. discriminate.
Qed.

Lemma Some_inj (A : Type) (x y : A) : Some x = Some y -> y = x.
Proof. congruence. Qed.

(** What [encode] writes for one character, [decode] reads back. *)
Lemma utf8_decode_encode_char (c : N) (bs r : bytes) :
  utf8_encode_char c = Some bs ->
  utf8_decode (bs ++ r) = option_map (cons c) (utf8_decode r).
Proof.
  unfold utf8_encode_char.
  destruct (div64 c) as (q1 & r1 & Hc & Hr1 & Eq1 & Er1).
  destruct (div64 q1) as (q2 & r2 & Hq1 & Hr2 & Eq2 & Er2).
  destruct (div64 q2) as (q3 & r3 & Hq2 & Hr3 & Eq3 & Er3).
  replace (c / 4096)%N with q2
    by (rewrite <- Eq2, <- Eq1, N.Div0.div_div; reflexivity).
  replace (c / 262144)%N with q3
    by (rewrite <- Eq3, <- Eq2, <- Eq1, !N.Div0.div_div; reflexivity).
  rewrite Eq1, Er1, Er2, Er3.
  destruct (N.ltb_spec c 0x80).
  { intros E; apply Some_inj in E; subst bs; unfold app. rewrite utf8_decode_1;
      rewrite to_N_byte_of_N by lia; [reflexivity | lia]. }
  destruct (N.ltb_spec c 0x800).
  { intros E; apply Some_inj in E; subst bs; unfold app. rewrite utf8_decode_2;
      unfold cont_bits; rewrite ?to_N_byte_of_N by lia; try lia.
    do 2 f_equal. lia. }
  destruct (N.ltb_spec c 0x10000).
  { destruct (N.leb_spec 0xD800 c); cbn [andb];
      [destruct (N.leb_spec c 0xDFFF); [discriminate|]|];
      intros E; apply Some_inj in E; subst bs; unfold app; rewrite utf8_decode_3;
      unfold cont_bits; rewrite ?to_N_byte_of_N by lia; try lia;
      do 2 f_equal; lia. }
  destruct (N.ltb_spec c 0x110000); [|discriminate].
  intros E; apply Some_inj in E; subst bs; unfold app. rewrite utf8_decode_4;
    unfold cont_bits; rewrite ?to_N_byte_of_N by lia; try lia.
  do 2 f_equal. lia.
Qed.

Lemma utf8_decode_encode (t : str) (bs : bytes) :
  utf8_encode t = Some bs -> utf8_decode bs = Some t.
Proof.
  revert bs. induction t as [|c t IH]; intros bs; cbn [utf8_encode].
  - now intros [= <-].
  - destruct (utf8_encode_char c) as [cs|] eqn:Ec; [|discriminate].
    destruct (utf8_encode t) as [ts|]; [|discriminate].
    intros [= <-]. rewrite (utf8_decode_encode_char _ _ _ Ec).
    now rewrite (IH ts eq_refl).
Qed.

(** Seven-bit bytes decode to the same numbers. *)
Lemma utf8_decode_seven_bit (s : bytes) :
  Forall seven_bit s -> utf8_decode s = Some (map Byte.to_N s).
Proof.
  induction 1 as [|b s Hb _ IH]; [reflexivity|].
  rewrite utf8_decode_1 by exact Hb. now rewrite IH.
Qed.

(** ** Integers as text *)

Lemma decimal_value_app (ds : list N) (d : N) :
  decimal_value (ds ++ [d]) = (decimal_value ds * 10 + d)%N.
Proof. unfold decimal_value. now rewrite fold_left_app. Qed.

(** With fuel for the binary digits, [digits_fuel] puts the decimal digits
    of [n] in front of [acc]. *)
Lemma digits_fuel_spec (fuel : nat) (n : N) (acc : list N) :
  (n < 2 ^ N.of_nat (S fuel))%N ->
  exists ds, digits_fuel (S fuel) n acc = ds ++ acc
             /\ ds <> [] /\ Forall (fun d => d < 10)%N ds
             /\ decimal_value ds = n.
Proof.
  revert n acc. induction fuel as [|fuel IH]; intros n acc H;
    cbn [digits_fuel]; destruct (N.ltb_spec n 10) as [Hn|Hn].
  - exists [n]. repeat split; [discriminate | now repeat constructor].
  - change (2 ^ N.of_nat 1)%N with 2%N in H. lia.
  - exists [n]. repeat split; [discriminate | now repeat constructor].
  - destruct (IH (n / 10)%N ((n mod 10)%N :: acc)) as (ds & E & _ & Hd & Hv).
    { apply N.Div0.div_lt_upper_bound.
      rewrite Nat2N.inj_succ, N.pow_succ_r' in H. lia. }
    exists (ds ++ [(n mod 10)%N]). rewrite <- app_assoc. repeat split.
    + exact E.
    + now destruct ds.
    + apply Forall_app. split; [exact Hd|].
      repeat constructor. apply N.mod_lt. discriminate.
    + rewrite decimal_value_app, Hv.
      pose proof (N.div_mod n 10 ltac:(discriminate)). lia.
Qed.

Lemma decimal_digits_spec (n : N) :
  decimal_digits n <> [] /\ Forall (fun d => d < 10)%N (decimal_digits n)
  /\ decimal_value (decimal_digits n) = n.
Proof.
  unfold decimal_digits.
  destruct (digits_fuel_spec (N.to_nat (N.log2 n)) n [])
    as (ds & E & Hne & Hd & Hv).
  - rewrite Nat2N.inj_succ, N2Nat.id.
    destruct n as [|p]; [reflexivity|]. now apply N.log2_spec.
  - rewrite E, app_nil_r. now repeat split.
Qed.

Section IntText.
Variable unicode_isspace : N -> bool.
Variable unicode_todecimal : N -> option N.
Variable int_max_str_digits : option nat.

Local Abbreviation int_of :=
  (py_int unicode_isspace unicode_todecimal int_max_str_digits).

(** [int] of a text of decimal digits within the limit of the interpreter,
    with or without a minus sign. *)
Lemma py_int_digits_within (negative : bool) (digits : list N) :
  digits <> [] -> Forall (fun d => d < 10)%N digits ->
  over_limit int_max_str_digits (List.length digits) = false ->
  int_of ((if negative then [45%N] else []) ++ digits_text digits)
  = Ok (if negative then (- Z.of_N (decimal_value digits))%Z
        else Z.of_N (decimal_value digits)).
Proof.
  intros Hne Hd Hlim. unfold py_int, to_ascii.
  assert (Ha : is_ascii ((if negative then [45%N] else [])
                         ++ digits_text digits) = true).
  { unfold is_ascii. rewrite forallb_app.
    fold (is_ascii (digits_text digits)). rewrite (is_ascii_digits _ Hd).
    now destruct negative. }
  rewrite Ha. clear Ha.
  destruct digits as [|d digits]; [now elim Hne|].
  inversion Hd as [|? ? Hd0 Hds]; subst.
  destruct (digit_char d Hd0) as (Hdig & Hsp & H43 & H45 & _ & Hsub).
  assert (Eu : int_unsigned int_max_str_digits (digits_text (d :: digits))
               = Some (decimal_value (d :: digits))).
  { cbn [digits_text map int_unsigned]. rewrite Hdig, Hsub.
    change (map (N.add 48) digits) with (digits_text digits).
    rewrite (scan_digits_digits _ _ _ Hds).
    cbn [forallb andb]. cbn [List.length] in Hlim.
    now rewrite Nat.add_1_l, Hlim. }
  destruct negative.
  - change (int_signed int_max_str_digits
              (lstrip_with c_isspace ([45%N] ++ digits_text (d :: digits))))
      with (option_map (fun n => (- Z.of_N n)%Z)
              (int_unsigned int_max_str_digits (digits_text (d :: digits)))).
    now rewrite Eu.
  - cbn [app digits_text map lstrip_with]. rewrite Hsp.
    cbn [int_signed]. rewrite H43, H45.
    change (48 + d :: map (N.add 48) digits)%N
      with (digits_text (d :: digits)).
    now rewrite Eu.
Qed.

(** [int(str(z))] is [z]. *)
Lemma py_int_str_of_int (z : Z) (text : str) :
  str_of_int int_max_str_digits z = Some text -> int_of text = Ok z.
Proof.
  unfold str_of_int.
  destruct (decimal_digits_spec (Z.abs_N z)) as (Hne & Hd & Hv).
  destruct (over_limit _ _) eqn:Hlim; [discriminate|].
  intros H. apply Some_inj in H. subst text.
  change (map (N.add 48) (decimal_digits (Z.abs_N z)))
    with (digits_text (decimal_digits (Z.abs_N z))).
  rewrite (py_int_digits_within (z <? 0)%Z _ Hne Hd Hlim), Hv.
  f_equal. destruct (Z.ltb_spec z 0); lia.
Qed.

End IntText.

Section StripKeep.
Variable A : Type.
Variable drop : A -> bool.

(** Nothing is removed from a sequence whose last element is kept. *)
Lemma rstrip_with_keep (s : list A) (c : A) :
  drop c = false -> rstrip_with drop (s ++ [c]) = s ++ [c].
Proof.
  intros H. unfold rstrip_with. rewrite rev_app_distr.
  cbn [rev app lstrip_with]. rewrite H.
  change (c :: rev s) with (rev [c] ++ rev s).
  now rewrite <- rev_app_distr, rev_involutive.
Qed.
End StripKeep.

Lemma scalar_encodes (c : N) :
  scalar c <-> exists bs, utf8_encode_char c = Some bs.
Proof.
  unfold scalar, utf8_encode_char.
  destruct (N.ltb_spec c 0x80); [split; [eauto | lia]|].
  destruct (N.ltb_spec c 0x800); [split; [eauto | lia]|].
  destruct (N.ltb_spec c 0x10000).
  - destruct (N.leb_spec 0xD800 c); cbn [andb];
      [destruct (N.leb_spec c 0xDFFF)|];
      (split; [intros; first [lia | eauto] | intros [bs Hbs]; first [discriminate | lia]]).
  - destruct (N.ltb_spec c 0x110000);
      (split; [intros; first [lia | eauto] | intros [bs Hbs]; first [discriminate | lia]]).
Qed.

(** [encode] raises exactly on a text with a code point that is no scalar
    value. *)
Lemma utf8_encode_scalar (t : str) :
  Forall scalar t <-> exists bs, utf8_encode t = Some bs.
Proof.
  induction t as [|c t IH]; cbn [utf8_encode].
  - split; [now exists [] | constructor].
  - split.
    + intros H. inversion H as [|? ? Hc Ht]; subst.
      apply scalar_encodes in Hc. destruct Hc as [cs ->].
      apply IH in Ht. destruct Ht as [ts ->]. now eexists.
    + intros [bs H].
      destruct (utf8_encode_char c) as [cs|] eqn:Ec; [|discriminate].
      destruct (utf8_encode t) as [ts|]; [|discriminate].
      constructor; [apply scalar_encodes; eauto | apply IH; eauto].
Qed.

(** The text of an integer: a minus sign or nothing, then its digits.  It
    does not end with a dot and all its characters are scalar values. *)
Lemma str_of_int_text (lim : option nat) (z : Z) (text : str) :
  str_of_int lim z = Some text ->
  TeleinfoFrame.rstrip_dot text = text /\ Forall scalar text.
Proof.
  unfold str_of_int.
  destruct (decimal_digits_spec (Z.abs_N z)) as (Hne & Hd & _).
  destruct (over_limit _ _); [discriminate|].
  intros H. apply Some_inj in H. subst text. split.
  - destruct (exists_last Hne) as (ds & d & E). rewrite E in *.
    rewrite map_app, app_assoc. apply rstrip_with_keep.
    apply Forall_app in Hd. destruct Hd as [_ Hd].
    inversion Hd; subst. apply N.eqb_neq. lia.
  - apply Forall_app. split.
    + destruct (z <? 0)%Z; repeat constructor.
    + apply Forall_map. eapply Forall_impl; [|exact Hd].
      intros d Hd'. unfold scalar. cbv beta in Hd'. lia.
Qed.

(** ** [TeleinfoFrame.set] *)

Section SetFacts.
Import TeleinfoFrame.
Variable unicode_isspace : N -> bool.
Variable unicode_todecimal : N -> option N.
Variable int_max_str_digits : option nat.

Local Abbreviation get_ :=
  (get unicode_isspace unicode_todecimal int_max_str_digits).
Local Abbreviation coerce_ :=
  (coerce unicode_isspace unicode_todecimal int_max_str_digits).
Local Abbreviation set_ := (set int_max_str_digits).

(** [get] of a present key is the coercion of the decoded raw value. *)
Lemma get_decoded (self : t) (key : str) (v : bytes) (text : str) :
  dict_get (_raw_data self) key = Some v -> utf8_decode v = Some text ->
  get_ self key = coerce_ (field_type key) text.
Proof.
  intros Hk Hv. rewrite get_dispatch, Hk. unfold formatter_of, coerce.
  destruct (field_type key);
    unfold _format_str, _format_int, decode, bytes_decode;
    now rewrite Hv.
Qed.

Lemma set_stored (self self' : t) (key : str) (value : Any) :
  set_ self key value = Stored self' ->
  exists text raw,
    py_str int_max_str_digits value = Some text
    /\ utf8_encode text = Some raw
    /\ _raw_data self' = dict_set (_raw_data self) key raw.
Proof.
  unfold set. destruct (py_str _ value) as [text|]; [|discriminate].
  destruct (utf8_encode text) as [raw|] eqn:E; [|discriminate].
  intros [= <-]. now exists text, raw.
Qed.

(** X5: after [set(key, value)], [get(key)] is the text of the value
    coerced by the type of the key.  An integer that is no [bool], stored
    under an integer label, comes back as it is; under a string label it
    comes back as its decimal text; a text stored under a string label
    comes back without the dots at its end.  A [bool] is stored as the text
    [True] or [False]: under a string label it comes back as that text,
    and under an integer label [get] raises [ValueError]. *)
Theorem set_then_get :
  forall (self self' : t) (key : str) (value : Any),
    set_ self key value = Stored self' ->
    exists text,
      py_str int_max_str_digits value = Some text
      /\ get_ self' key = coerce_ (field_type key) text
      /\ (forall z, value = AInt z -> field_type key = Integer_tag ->
          get_ self' key = Ok (FInt z))
      /\ (forall z, value = AInt z -> field_type key = String_tag ->
          get_ self' key = Ok (FStr text))
      /\ (forall s, value = AStr s -> field_type key = String_tag ->
          get_ self' key = Ok (FStr (rstrip_dot s)))
      /\ (forall b, value = ABool b -> field_type key = String_tag ->
          get_ self' key
          = Ok (FStr (if b then s_ "True" else s_ "False")))
      /\ (forall b, value = ABool b -> field_type key = Integer_tag ->
          get_ self' key = Raise ValueError).
Proof.
  intros self self' key value H.
  destruct (set_stored _ _ _ _ H) as (text & raw & Ht & Hraw & Hd).
  assert (E : get_ self' key = coerce_ (field_type key) text).
  { apply (get_decoded _ _ raw).
    - now rewrite Hd, dict_get_set, str_eqb_refl.
    - now apply utf8_decode_encode. }
  exists text. split; [exact Ht|]. split; [exact E|].
  rewrite E. split; [|split; [|split; [|split]]].
  - intros z -> ->. cbn [py_str] in Ht. cbn [coerce].
    now rewrite (py_int_str_of_int _ _ _ _ _ Ht).
  - intros z -> ->. cbn [py_str] in Ht. cbn [coerce].
    now rewrite (proj1 (str_of_int_text _ _ _ Ht)).
  - intros s -> ->. cbn [py_str] in Ht. now inversion Ht.
  - intros b -> ->. destruct b; cbn [py_str] in Ht;
      apply Some_inj in Ht; subst text; reflexivity.
  - intros b -> ->. destruct b; cbn [py_str] in Ht;
      apply Some_inj in Ht; subst text; reflexivity.
Qed.

(** X6: [set] touches one entry only.  The key is present afterwards; every
    other key keeps its raw value and its [get]; a key that was present
    keeps its place and a new key goes last; the keys stay distinct. *)
Theorem set_keeps_other_fields :
  forall (self self' : t) (key : str) (value : Any),
    set_ self key value = Stored self' ->
    (exists raw, dict_get (_raw_data self') key = Some raw)
    /\ (forall key', key' <> key ->
        dict_get (_raw_data self') key' = dict_get (_raw_data self) key'
        /\ get_ self' key' = get_ self key')
    /\ dict_keys (_raw_data self')
       = match dict_get (_raw_data self) key with
         | Some _ => dict_keys (_raw_data self)
         | None => dict_keys (_raw_data self) ++ [key]
         end
    /\ (NoDup (dict_keys (_raw_data self)) ->
        NoDup (dict_keys (_raw_data self'))).
Proof.
  intros self self' key value H.
  destruct (set_stored _ _ _ _ H) as (text & raw & _ & _ & Hd).
  split; [|split; [|split]].
  - exists raw. now rewrite Hd, dict_get_set, str_eqb_refl.
  - intros key' Hne.
    assert (E : dict_get (_raw_data self') key'
                = dict_get (_raw_data self) key').
    { rewrite Hd, dict_get_set. apply str_eqb_neq in Hne. now rewrite Hne. }
    split; [exact E | now rewrite !get_dispatch, E].
  - rewrite Hd. apply dict_keys_set.
  - intros Hnd. rewrite Hd. now apply dict_set_NoDup.
Qed.

(** X7: [set] stores the value exactly when it is storable: a text is
    stored unless it holds a code point without encoding (a surrogate),
    which raises [UnicodeEncodeError]; an integer is stored unless it has
    more digits than the limit of the interpreter, which raises
    [ValueError]; a [bool] is always stored. *)
Theorem set_stores_storable :
  forall (self : t) (key : str) (value : Any),
    ((exists self', set_ self key value = Stored self') <-> storable int_max_str_digits value)
    /\ (forall s, value = AStr s ->
        set_ self key value = SetUnicodeEncodeError
        \/ exists self', set_ self key value = Stored self')
    /\ (forall z, value = AInt z ->
        set_ self key value = SetValueError
        \/ exists self', set_ self key value = Stored self')
    /\ (forall b, value = ABool b ->
        exists self', set_ self key value = Stored self').
Proof.
  intros self key value. unfold set, storable.
  destruct value as [s|z|b]; cbn [py_str].
  - pose proof (utf8_encode_scalar s) as Hs.
    destruct (utf8_encode s) as [raw|].
    + split; [split; [intros _; apply Hs; eauto | eauto]|].
      split; [intros; right; eauto | split; discriminate].
    + split; [split; [intros [? ?]; discriminate |]|].
      * intros Hsc. apply Hs in Hsc. destruct Hsc; discriminate.
      * split; [now left | split; discriminate].
  - unfold str_of_int.
    destruct (over_limit _ _) eqn:Hlim.
    + split; [split; [intros [? ?]; discriminate | discriminate]|].
      split; [discriminate | split; [now left | discriminate]].
    + assert (Hstr : str_of_int int_max_str_digits z
                     = Some ((if (z <? 0)%Z then [45%N] else [])
                             ++ map (N.add 48) (decimal_digits (Z.abs_N z))))
        by (unfold str_of_int; now rewrite Hlim).
      destruct (proj1 (utf8_encode_scalar _)
                  (proj2 (str_of_int_text _ _ _ Hstr))) as [raw ->].
      split; [split; eauto|].
      split; [discriminate | split; [right; eauto | discriminate]].
  - destruct b; (split; [split; [trivial | intros _; eexists; reflexivity]|]);
      (split; [discriminate | split; [discriminate|]]);
      intros ? _; eexists; reflexivity.
Qed.

End SetFacts.

Lemma set_then_get_witness :
  let self := TeleinfoFrame.TeleinfoFrame [(s_ "ADCO", b_ "012345678901")] in
  let self' :=
    TeleinfoFrame.TeleinfoFrame
      [(s_ "ADCO", b_ "012345678901"); (s_ "PAPP", b_ "-750")] in
  let self'' :=
    TeleinfoFrame.TeleinfoFrame
      [(s_ "ADCO", b_ "012345678901"); (s_ "PAPP", b_ "True")] in
  set default_max_str_digits self (s_ "PAPP") (AInt (-750)) = Stored self'
  /\ TeleinfoFrame.get unicode14_isspace unicode14_todecimal
       default_max_str_digits self' (s_ "PAPP")
     = Ok (TeleinfoFrame.FInt (-750))
  /\ set default_max_str_digits self (s_ "PAPP") (ABool true)
     = Stored self''
  /\ TeleinfoFrame.get unicode14_isspace unicode14_todecimal
       default_max_str_digits self'' (s_ "PAPP")
     = Raise ValueError.
Proof.
  intros self self' self''.
  assert (H : set default_max_str_digits self (s_ "PAPP") (AInt (-750))
              = Stored self') by reflexivity.
  assert (H' : set default_max_str_digits self (s_ "PAPP") (ABool true)
               = Stored self'') by reflexivity.
  destruct (set_then_get unicode14_isspace unicode14_todecimal
              default_max_str_digits self self' _ _ H)
    as (text & _ & _ & Hint & _).
  destruct (set_then_get unicode14_isspace unicode14_todecimal
              default_max_str_digits self self'' _ _ H')
    as (text' & _ & _ & _ & _ & _ & _ & Hbool).
  exact (conj H (conj (Hint _ eq_refl eq_refl)
                  (conj H' (Hbool _ eq_refl eq_refl)))).
Defined.

Lemma set_keeps_other_fields_witness :
  let self :=
    TeleinfoFrame.TeleinfoFrame
      [(s_ "ADCO", b_ "012345678901"); (s_ "PTEC", b_ "HP..")] in
  let self' :=
    TeleinfoFrame.TeleinfoFrame
      [(s_ "ADCO", b_ "42"); (s_ "PTEC", b_ "HP..")] in
  set default_max_str_digits self (s_ "ADCO") (AStr (s_ "42"))
  = Stored self'
  /\ dict_keys (TeleinfoFrame._raw_data self') = [s_ "ADCO"; s_ "PTEC"]
  /\ TeleinfoFrame.get unicode14_isspace unicode14_todecimal
       default_max_str_digits self' (s_ "PTEC")
     = TeleinfoFrame.get unicode14_isspace unicode14_todecimal
         default_max_str_digits self (s_ "PTEC").
Proof.
  intros self self'.
  assert (H : set default_max_str_digits self (s_ "ADCO")
                (AStr (s_ "42")) = Stored self')
    by reflexivity.
  destruct (set_keeps_other_fields unicode14_isspace unicode14_todecimal
              default_max_str_digits self self' _ _ H)
    as (_ & Hother & Hkeys & _).
  split; [exact H | split; [exact Hkeys|]].
  apply Hother. discriminate.
Defined.

(** ** [TeleinfoFrame.format_fields] *)

Section FormatFacts.
Import TeleinfoFrame.
Variable unicode_isspace : N -> bool.
Variable unicode_todecimal : N -> option N.
Variable int_max_str_digits : option nat.

Local Abbreviation get_ :=
  (get unicode_isspace unicode_todecimal int_max_str_digits).
Local Abbreviation format_keys_ :=
  (format_keys unicode_isspace unicode_todecimal int_max_str_digits).
Local Abbreviation format_fields_ :=
  (format_fields unicode_isspace unicode_todecimal int_max_str_digits).

Lemma format_keys_ok (self : t) (keys : list str) (acc d : dict field) :
  NoDup (dict_keys acc ++ keys) ->
  format_keys_ self keys acc = Ok d ->
  dict_keys d = dict_keys acc ++ keys
  /\ (forall key, In key keys ->
      exists v, get_ self key = Ok v /\ dict_get d key = Some v)
  /\ (forall key, ~ In key keys -> dict_get d key = dict_get acc key).
Proof.
  revert acc. induction keys as [|key keys IH]; intros acc Hnd;
    cbn [format_keys].
  - intros [= <-]. rewrite app_nil_r. repeat split. intros key [].
  - destruct (get_ self key) as [v|e] eqn:Eg; [|discriminate].
    cbn [bind]. intros H.
    assert (Hnew : dict_get acc key = None).
    { apply dict_get_None_keys. intros Hin.
      apply NoDup_remove_2 in Hnd. apply Hnd, in_or_app. now left. }
    assert (Hk : dict_keys (dict_set acc key v) = dict_keys acc ++ [key])
      by now rewrite dict_keys_set, Hnew.
    destruct (IH (dict_set acc key v)) as (Hd & Hin & Hout);
      [rewrite Hk, <- app_assoc; exact Hnd | exact H |].
    assert (Hnk : ~ In key keys).
    { apply NoDup_remove_2 in Hnd. intros Hin'. apply Hnd, in_or_app.
      now right. }
    split; [now rewrite Hd, Hk, <- app_assoc|]. split.
    + intros k [<-|Hk']; [|now apply Hin].
      exists v. split; [exact Eg|].
      now rewrite (Hout _ Hnk), dict_get_set, str_eqb_refl.
    + intros k Hk'. rewrite Hout by (intros Hin'; apply Hk'; now right).
      rewrite dict_get_set.
      destruct (str_eqb k key) eqn:E; [|reflexivity].
      apply str_eqb_eq in E. subst k. elim Hk'. now left.
Qed.

Lemma format_keys_raise (self : t) (keys : list str) (acc : dict field)
  (e : exn) :
  format_keys_ self keys acc = Raise e ->
  exists pre key post,
    keys = pre ++ key :: post /\ get_ self key = Raise e
    /\ Forall (fun k => exists v, get_ self k = Ok v) pre.
Proof.
  revert acc. induction keys as [|key keys IH]; intros acc;
    cbn [format_keys]; [discriminate|].
  destruct (get_ self key) as [v|e0] eqn:Eg; cbn [bind].
  - intros H. destruct (IH _ H) as (pre & k & post & -> & Hk & Hpre).
    exists (key :: pre), k, post. repeat split; [exact Hk|].
    constructor; [now exists v | exact Hpre].
  - intros [= <-]. exists [], key, keys. repeat split; [exact Eg|].
    constructor.
Qed.

Lemma format_keys_all_ok (self : t) (keys : list str) (acc : dict field) :
  Forall (fun k => exists v, get_ self k = Ok v) keys ->
  exists d, format_keys_ self keys acc = Ok d.
Proof.
  intros H. revert acc. induction H as [|key keys [v Ev] _ IH]; intros acc;
    cbn [format_keys].
  - now exists acc.
  - rewrite Ev. cbn [bind]. apply IH.
Qed.

(** X8: [format_fields] of a record (its keys are distinct) gives the
    fields in the order of the record, each with the value [get] returns
    for it; it raises exactly when [get] raises for some field, with the
    exception of the first such field. *)
Theorem format_fields_follows_get :
  forall self : t,
    NoDup (dict_keys (_raw_data self)) ->
    (forall d, format_fields_ self = Ok d ->
       dict_keys d = dict_keys (_raw_data self)
       /\ forall key, In key (dict_keys (_raw_data self)) ->
            exists v, get_ self key = Ok v /\ dict_get d key = Some v)
    /\ (forall e, format_fields_ self = Raise e ->
          exists pre key post,
            dict_keys (_raw_data self) = pre ++ key :: post
            /\ get_ self key = Raise e
            /\ Forall (fun k => exists v, get_ self k = Ok v) pre)
    /\ (Forall (fun k => exists v, get_ self k = Ok v)
          (dict_keys (_raw_data self))
        -> exists d, format_fields_ self = Ok d).
Proof.
  intros self Hnd. unfold format_fields. split; [|split].
  - intros d H. destruct (format_keys_ok self _ [] d Hnd H) as (Hk & Hin & _).
    now split.
  - intros e. apply format_keys_raise.
  - apply format_keys_all_ok.
Qed.

End FormatFacts.

Lemma format_fields_follows_get_witness :
  let self :=
    TeleinfoFrame.TeleinfoFrame
      [(s_ "ADCO", b_ "012345678901"); (s_ "PAPP", b_ "0075x")] in
  NoDup (dict_keys (TeleinfoFrame._raw_data self))
  /\ TeleinfoFrame.format_fields unicode14_isspace unicode14_todecimal
       default_max_str_digits self = Raise ValueError
  /\ exists pre key post,
       dict_keys (TeleinfoFrame._raw_data self) = pre ++ key :: post
       /\ TeleinfoFrame.get unicode14_isspace unicode14_todecimal
            default_max_str_digits self key = Raise ValueError
       /\ Forall (fun k => exists v,
                    TeleinfoFrame.get unicode14_isspace unicode14_todecimal
                      default_max_str_digits self k = Ok v) pre.
Proof.
  intros self.
  assert (Hnd : NoDup (dict_keys (TeleinfoFrame._raw_data self))).
  { repeat constructor; cbn; intuition discriminate. }
  assert (E : TeleinfoFrame.format_fields unicode14_isspace
                unicode14_todecimal default_max_str_digits self
              = Raise ValueError) by reflexivity.
  split; [exact Hnd | split; [exact E|]].
  exact (proj1 (proj2 (format_fields_follows_get unicode14_isspace
                         unicode14_todecimal default_max_str_digits
                         self Hnd)) _ E).
Defined.

(** ** Where the entries of a record come from *)

Section RecordOrigin.
Import TeleinfoReader.

Lemma check_line_ok_inv (frame_data line label value : bytes) :
  check_line frame_data line = Ok (label, value) ->
  exists c rest,
    bytes_split_n [SP] 2 line = [label; value; c :: rest]
    /\ line_sum line = Byte.to_N c.
Proof.
  unfold check_line.
  destruct (bytes_split_n [SP] 2 line) as [|l [|v [|ck [|x t]]]];
    try discriminate.
  destruct ck as [|c rest]; [discriminate|]. cbn [unpack3 bind bytes_index0].
  destruct (N.eqb_spec (line_sum line) (Byte.to_N c)) as [E|E];
    [|discriminate].
  intros [= <- <-]. now exists c, rest.
Qed.

Lemma parse_line_ok_inv (frame_data line : bytes) (key : str) (value : bytes) :
  parse_line frame_data line = Ok (key, value) ->
  exists label c rest,
    bytes_split_n [SP] 2 line = [label; value; c :: rest]
    /\ line_sum line = Byte.to_N c
    /\ utf8_decode label = Some key.
Proof.
  unfold parse_line.
  destruct (check_line frame_data line) as [[label v]|e] eqn:E;
    [|discriminate].
  cbn [bind fst snd]. unfold bytes_decode.
  destruct (utf8_decode label) as [k|] eqn:Ek; [|discriminate].
  cbn [bind]. intros [= <- <-].
  destruct (check_line_ok_inv _ _ _ _ E) as (c & rest & Ht & Hs).
  now exists label, c, rest.
Qed.

Lemma last_value_In (key : str) (lines : list bytes) (value : bytes) :
  last_value key lines = Some value ->
  exists line, In line lines /\ line_binding line = Some (key, value).
Proof.
  induction lines as [|line lines IH]; [discriminate|].
  cbn [last_value].
  destruct (last_value key lines) as [v|].
  - intros [= <-]. destruct (IH eq_refl) as (l & Hin & Hb).
    exists l. split; [now right | exact Hb].
  - destruct (line_binding line) as [[k v]|] eqn:Eb; [|discriminate].
    destruct (str_eqb key k) eqn:Ek; [|discriminate].
    apply str_eqb_eq in Ek. subst k. intros [= <-].
    exists line. split; [now left | exact Eb].
Qed.

(** An entry of a parsed record is the label and the value of a line of
    the payload that went through the control. *)
Lemma record_entry_origin (frame_data : bytes) (frame : TeleinfoFrame.t)
  (key : str) (value : bytes) :
  _parse_frame frame_data = Ok frame ->
  dict_get (TeleinfoFrame._raw_data frame) key = Some value ->
  exists line label c rest,
    In line (frame_lines frame_data)
    /\ bytes_split_n [SP] 2 line = [label; value; c :: rest]
    /\ line_sum line = Byte.to_N c
    /\ utf8_decode label = Some key.
Proof.
  unfold _parse_frame.
  destruct (parse_lines frame_data (frame_lines frame_data) []) as [d|e]
    eqn:E; [|discriminate].
  cbn [bind]. intros [= <-]. cbn [TeleinfoFrame._raw_data].
  rewrite (parse_lines_lookup _ _ _ _ key E).
  destruct (last_value key (frame_lines frame_data)) as [v|] eqn:El;
    [|discriminate].
  intros [= ->].
  destruct (last_value_In _ _ _ El) as (line & Hin & Hb).
  pose proof (parse_lines_all_ok _ _ _ _ E) as Hok.
  rewrite Forall_forall in Hok. destruct (Hok _ Hin) as [[k v] Hp].
  rewrite (parse_line_binding _ _ _ Hp) in Hb. inversion Hb; subst.
  destruct (parse_line_ok_inv _ _ _ _ Hp) as (label & c & rest & H1 & H2 & H3).
  now exists line, label, c, rest.
Qed.

(** X9: no field is in a record without its line having passed the
    control: every entry of a parsed record is the decoded label and the
    value of a line of the payload that has the form label, space, value,
    space, checksum (label and value without space), whose computed
    checksum is the first byte of its checksum token. *)
Theorem record_entries_passed_control :
  forall (frame_data : bytes) (frame : TeleinfoFrame.t) (key : str)
         (value : bytes),
    _parse_frame frame_data = Ok frame ->
    dict_get (TeleinfoFrame._raw_data frame) key = Some value ->
    exists line label c rest,
      In line (frame_lines frame_data)
      /\ line = label ++ SP :: value ++ SP :: c :: rest
      /\ ~ In SP label /\ ~ In SP value
      /\ utf8_decode label = Some key
      /\ spec_checksum line = Byte.to_N c.
Proof.
  intros frame_data frame key value Hp Hg.
  destruct (record_entry_origin _ _ _ _ Hp Hg)
    as (line & label & c & rest & Hin & Ht & Hs & Hk).
  exists line, label, c, rest.
  apply split3_iff in Ht. destruct Ht as (Hl & Hnl & Hnv).
  rewrite <- line_sum_spec. now repeat split.
Qed.

Lemma record_entries_passed_control_witness :
  let frame :=
    TeleinfoFrame.TeleinfoFrame
      [(s_ "ADCO", b_ "012345678901"); (s_ "HCHC", b_ "001234567")] in
  _parse_frame scenario_payload = Ok frame
  /\ dict_get (TeleinfoFrame._raw_data frame) (s_ "HCHC")
     = Some (b_ "001234567")
  /\ exists line label c rest,
       In line (frame_lines scenario_payload)
       /\ line = label ++ SP :: b_ "001234567" ++ SP :: c :: rest
       /\ ~ In SP label /\ ~ In SP (b_ "001234567")
       /\ utf8_decode label = Some (s_ "HCHC")
       /\ spec_checksum line = Byte.to_N c.
Proof.
  intros frame.
  assert (H1 : _parse_frame scenario_payload = Ok frame) by reflexivity.
  assert (H2 : dict_get (TeleinfoFrame._raw_data frame) (s_ "HCHC")
               = Some (b_ "001234567")) by reflexivity.
  exact (conj H1 (conj H2
           (record_entries_passed_control _ _ _ _ H1 H2))).
Defined.

End RecordOrigin.

(** ** Frames of seven-bit bytes *)

Section SevenBit.
Import TeleinfoReader.
Variable P : byte -> Prop.

Lemma bytes_split_n_Forall (sep : bytes) (n : nat) (s : bytes) :
  Forall P s -> Forall (Forall P) (bytes_split_n sep n s).
Proof.
  revert s. induction n as [|n IH]; intros s H; cbn [bytes_split_n].
  - now repeat constructor.
  - destruct (bytes_find sep s) as [[before after]|] eqn:E.
    + apply bytes_find_app in E. subst s.
      apply Forall_app in H. destruct H as [Hb H].
      apply Forall_app in H. destruct H as [_ Ha].
      constructor; [exact Hb | now apply IH].
    + now repeat constructor.
Qed.

Lemma lstrip_with_Forall (drop : byte -> bool) (s : bytes) :
  Forall P s -> Forall P (lstrip_with drop s).
Proof.
  intros H. destruct (lstrip_with_spec byte drop s) as (p & E & _).
  rewrite E in H. apply Forall_app in H. tauto.
Qed.

Lemma bytes_strip_Forall (s : bytes) :
  Forall P s -> Forall P (bytes_strip s).
Proof.
  intros H. unfold bytes_strip, rstrip_with.
  apply Forall_rev, lstrip_with_Forall, Forall_rev.
  now apply lstrip_with_Forall.
Qed.

Lemma frame_lines_Forall (frame_data : bytes) :
  Forall P frame_data -> Forall (Forall P) (frame_lines frame_data).
Proof.
  intros H. apply bytes_split_n_Forall. now apply bytes_strip_Forall.
Qed.
End SevenBit.

Section SevenBitFrames.
Import TeleinfoReader.

Lemma check_line_raises (frame_data line : bytes) (e : exn) :
  check_line frame_data line = Raise e ->
  e = ValueError \/ e = IndexError \/ is_TeleinfoException e = true.
Proof.
  unfold check_line.
  destruct (bytes_split_n [SP] 2 line) as [|l [|v [|ck [|x t]]]];
    cbn [unpack3 bind]; try (intros [= <-]; now left).
  destruct ck as [|c rest]; cbn [bytes_index0 bind].
  - intros [= <-]. right. now left.
  - destruct (negb _); [|discriminate]. intros [= <-]. right. now right.
Qed.

Lemma parse_lines_raise_inv (frame_data : bytes) (lines : list bytes)
  (d : dict bytes) (e : exn) :
  parse_lines frame_data lines d = Raise e ->
  exists line, In line lines /\ parse_line frame_data line = Raise e.
Proof.
  revert d. induction lines as [|line lines IH]; intros d;
    cbn [parse_lines]; [discriminate|].
  destruct (parse_line frame_data line) as [kv|e0] eqn:E; cbn [bind].
  - intros H. destruct (IH _ H) as (l & Hin & Hl).
    exists l. split; [now right | exact Hl].
  - intros [= <-]. exists line. split; [now left | exact E].
Qed.

(** On a line of seven-bit bytes the label always decodes. *)
Lemma parse_line_seven_bit (frame_data line : bytes) (e : exn) :
  Forall seven_bit line -> parse_line frame_data line = Raise e ->
  e = ValueError \/ e = IndexError \/ is_TeleinfoException e = true.
Proof.
  intros H7. unfold parse_line.
  destruct (check_line frame_data line) as [[label value]|e0] eqn:E;
    cbn [bind fst snd].
  - destruct (check_line_ok_inv _ _ _ _ E) as (c & rest & Ht & _).
    pose proof (bytes_split_n_Forall seven_bit [SP] 2 line H7) as Hf.
    rewrite Ht in Hf. inversion Hf as [|? ? Hl _]; subst.
    unfold bytes_decode. now rewrite (utf8_decode_seven_bit _ Hl).
  - intros [= <-]. exact (check_line_raises _ _ _ E).
Qed.

Variable unicode_isspace : N -> bool.
Variable unicode_todecimal : N -> option N.
Variable int_max_str_digits : option nat.

(** X10: a payload of seven-bit bytes, as the serial line delivers, never
    fails to decode.  Parsing raises nothing but [ValueError],
    [IndexError] or [TeleinfoException]; in a parsed record every raw value
    is seven-bit and [get] is the coercion of its characters, so a string
    field never raises, and [format_fields] raises nothing but the
    [ValueError] of an integer field that is no integer. *)
Theorem seven_bit_frames_decode :
  forall frame_data : bytes,
    Forall seven_bit frame_data ->
    (forall e, _parse_frame frame_data = Raise e ->
       e = ValueError \/ e = IndexError \/ is_TeleinfoException e = true)
    /\ (forall frame key value,
          _parse_frame frame_data = Ok frame ->
          dict_get (TeleinfoFrame._raw_data frame) key = Some value ->
          Forall seven_bit value
          /\ TeleinfoFrame.get unicode_isspace unicode_todecimal
               int_max_str_digits frame key
             = coerce unicode_isspace unicode_todecimal int_max_str_digits
                 (field_type key) (map Byte.to_N value))
    /\ (forall frame e,
          _parse_frame frame_data = Ok frame ->
          TeleinfoFrame.format_fields unicode_isspace unicode_todecimal
            int_max_str_digits frame = Raise e ->
          e = ValueError).
Proof.
  intros frame_data H7.
  pose proof (frame_lines_Forall seven_bit _ H7) as Hlines.
  rewrite Forall_forall in Hlines.
  assert (Hentry : forall frame key value,
             _parse_frame frame_data = Ok frame ->
             dict_get (TeleinfoFrame._raw_data frame) key = Some value ->
             Forall seven_bit value
             /\ TeleinfoFrame.get unicode_isspace unicode_todecimal
                  int_max_str_digits frame key
                = coerce unicode_isspace unicode_todecimal
                    int_max_str_digits (field_type key)
                    (map Byte.to_N value)).
  { intros frame key value Hp Hg.
    destruct (record_entry_origin _ _ _ _ Hp Hg)
      as (line & label & c & rest & Hin & Ht & _ & _).
    pose proof (bytes_split_n_Forall seven_bit [SP] 2 line (Hlines _ Hin))
      as Hf.
    rewrite Ht in Hf. inversion Hf as [|? ? _ Hf']; subst.
    inversion Hf' as [|? ? Hv _]; subst.
    split; [exact Hv|].
    now apply (get_decoded _ _ _ _ _ value), utf8_decode_seven_bit. }
  split; [|split; [exact Hentry|]].
  - intros e. unfold _parse_frame.
    destruct (parse_lines frame_data (frame_lines frame_data) []) as [d|e0]
      eqn:E; [discriminate|].
    cbn [bind]. intros [= <-].
    destruct (parse_lines_raise_inv _ _ _ _ E) as (line & Hin & Hl).
    exact (parse_line_seven_bit _ _ _ (Hlines _ Hin) Hl).
  - intros frame e Hp Hf.
    destruct (format_keys_raise _ _ _ _ _ _ _ Hf)
      as (pre & key & post & Hk & Hg & _).
    destruct (dict_get (TeleinfoFrame._raw_data frame) key) as [value|]
      eqn:Ev.
    + destruct (Hentry _ _ _ Hp Ev) as [_ Hc]. rewrite Hc in Hg.
      unfold coerce in Hg. destruct (field_type key); [discriminate|].
      destruct (py_int _ _ _ _) as [z|e0] eqn:Ei; [discriminate|].
      cbn [bind] in Hg. inversion Hg; subst.
      exact (py_int_raises_ValueError _ _ _ _ _ Ei).
    + apply dict_get_None_keys in Ev. elim Ev. rewrite Hk.
      apply in_or_app. right. now left.
Qed.

End SevenBitFrames.

Lemma seven_bit_frames_decode_witness :
  Forall seven_bit scenario_payload
  /\ TeleinfoFrame.get unicode14_isspace unicode14_todecimal
       default_max_str_digits
       (TeleinfoFrame.TeleinfoFrame
          [(s_ "ADCO", b_ "012345678901"); (s_ "HCHC", b_ "001234567")])
       (s_ "ADCO")
     = coerce unicode14_isspace unicode14_todecimal default_max_str_digits
         (field_type (s_ "ADCO")) (map Byte.to_N (b_ "012345678901")).
Proof.
  assert (H : Forall seven_bit scenario_payload)
    by (repeat constructor).
  split; [exact H|].
  exact (proj2 (proj1 (proj2 (seven_bit_frames_decode unicode14_isspace
                                unicode14_todecimal default_max_str_digits
                                _ H))
                  _ (s_ "ADCO") (b_ "012345678901") eq_refl eq_refl)).
Defined.

(** ** The framing of the meter *)

Section Framing.
Import TeleinfoReader.

Lemma strip_prefix_self (sep rest : bytes) :
  strip_prefix sep (sep ++ rest) = Some rest.
Proof.
  induction sep as [|x sep IH]; [now destruct rest|].
  cbn [app strip_prefix]. now rewrite (Byte.byte_dec_lb (eq_refl x)).
Qed.

Lemma strip_prefix_head (x y : byte) (sep s : bytes) :
  x <> y -> strip_prefix (x :: sep) (y :: s) = None.
Proof.
  intros H. cbn [strip_prefix].
  destruct (Byte.eqb x y) eqn:E; [|reflexivity].
  apply Byte.byte_dec_bl in E. now elim H.
Qed.

(** A separator whose first byte is not in [g] is found right after [g],
    and not at all in [g] alone. *)
Lemma bytes_find_after (x : byte) (sep g rest : bytes) :
  ~ In x g ->
  bytes_find (x :: sep) (g ++ (x :: sep) ++ rest) = Some (g, rest).
Proof.
  induction g as [|y g IH]; intros H.
  - pose proof (strip_prefix_self (x :: sep) rest) as E.
    cbn [app] in E. cbn [app bytes_find]. now rewrite E.
  - cbn [app bytes_find].
    rewrite strip_prefix_head by (intros ->; apply H; now left).
    assert (E : bytes_find (x :: sep) (g ++ (x :: sep) ++ rest)
                = Some (g, rest))
      by (apply IH; intros Hin; apply H; now right).
    cbn [app] in E. now rewrite E.
Qed.

Lemma bytes_find_absent (x : byte) (sep g : bytes) :
  ~ In x g -> bytes_find (x :: sep) g = None.
Proof.
  induction g as [|y g IH]; intros H; [reflexivity|].
  cbn [bytes_find].
  rewrite strip_prefix_head by (intros ->; apply H; now left).
  now rewrite IH by (intros Hin; apply H; now right).
Qed.

(** More cuts than the bytes of [s] change nothing. *)
Lemma bytes_split_n_more (x : byte) (sep : bytes) (n m : nat) (s : bytes) :
  List.length s <= n -> List.length s <= m ->
  bytes_split_n (x :: sep) n s = bytes_split_n (x :: sep) m s.
Proof.
  revert m s. induction n as [|n IH]; intros m s Hn Hm.
  - destruct s; [|cbn in Hn; lia]. now destruct m.
  - destruct m as [|m].
    + destruct s; [reflexivity | cbn in Hm; lia].
    + cbn [bytes_split_n].
      destruct (bytes_find (x :: sep) s) as [[before after]|] eqn:E;
        [|reflexivity].
      f_equal. apply bytes_find_app in E. subst s.
      rewrite !length_app in Hn, Hm. cbn [List.length] in Hn, Hm.
      apply IH; lia.
Qed.

Lemma bytes_split_cons (x : byte) (sep g rest : bytes) :
  ~ In x g ->
  bytes_split (x :: sep) (g ++ (x :: sep) ++ rest)
  = g :: bytes_split (x :: sep) rest.
Proof.
  intros H. unfold bytes_split.
  rewrite (bytes_split_n_more x sep _
             (S (List.length (g ++ (x :: sep) ++ rest)))) by lia.
  cbn [bytes_split_n]. rewrite (bytes_find_after _ _ _ _ H).
  f_equal. apply bytes_split_n_more; rewrite ?length_app; cbn [List.length];
    rewrite ?length_app; lia.
Qed.

Lemma bytes_split_single (x : byte) (sep g : bytes) :
  ~ In x g -> bytes_split (x :: sep) g = [g].
Proof.
  intros H. unfold bytes_split. destruct (List.length g); [reflexivity|].
  cbn [bytes_split_n]. now rewrite (bytes_find_absent _ _ _ H).
Qed.

(** Splitting on CRLF gives back the lines that were joined, when none of
    them holds a carriage return. *)
Lemma bytes_split_join (groups : list bytes) :
  groups <> [] -> Forall (fun g => ~ In CR g) groups ->
  bytes_split [CR; LF] (join_lines groups) = groups.
Proof.
  intros Hne H. induction H as [|g gs Hg Hgs IH]; [now elim Hne|].
  cbn [join_lines]. destruct gs as [|g' gs].
  - now apply bytes_split_single.
  - change (g ++ CR :: LF :: join_lines (g' :: gs))
      with (g ++ [CR; LF] ++ join_lines (g' :: gs)).
    rewrite (bytes_split_cons _ _ _ _ Hg). f_equal. now apply IH.
Qed.

Lemma join_lines_snoc (groups : list bytes) (g tail : bytes) :
  join_lines (groups ++ [g ++ tail]) = join_lines (groups ++ [g]) ++ tail.
Proof.
  induction groups as [|h groups IH]; [reflexivity|].
  cbn [app join_lines]. destruct groups as [|h' groups].
  - cbn [app]. now rewrite <- app_assoc.
  - cbn [app] in *. rewrite IH. now rewrite <- app_assoc.
Qed.

Lemma meter_frame_join (groups : list bytes) :
  groups <> [] ->
  meter_frame groups = [LF] ++ join_lines groups ++ [CR].
Proof.
  intros Hne. induction groups as [|g groups IH]; [now elim Hne|].
  unfold meter_frame in *. cbn [flat_map join_lines].
  destruct groups as [|g' groups].
  - cbn [flat_map]. now rewrite app_nil_r.
  - rewrite IH by discriminate.
    cbn [app]. rewrite <- !app_assoc. reflexivity.
Qed.

Lemma lstrip_with_pad (ws body : bytes) :
  forallb bytes_isspace ws = true -> starts_clean body ->
  lstrip_with bytes_isspace (ws ++ body) = body.
Proof.
  intros Hws Hb. induction ws as [|w ws IH]; cbn [app lstrip_with].
  - destruct body as [|b body]; [destruct Hb|].
    cbn [lstrip_with]. cbn in Hb. now rewrite Hb.
  - cbn [forallb] in Hws. apply andb_true_iff in Hws.
    destruct Hws as [-> Hws]. now apply IH.
Qed.

(** Trimming removes the white space around a core that starts and ends
    with a byte that is none. *)
Lemma bytes_strip_pad (ws1 core ws2 : bytes) :
  forallb bytes_isspace ws1 = true -> forallb bytes_isspace ws2 = true ->
  starts_clean core -> ends_clean core ->
  bytes_strip (ws1 ++ core ++ ws2) = core.
Proof.
  intros H1 H2 Hs He. unfold bytes_strip, rstrip_with.
  assert (Hs' : starts_clean (core ++ ws2)).
  { destruct core; [destruct Hs | exact Hs]. }
  rewrite (lstrip_with_pad _ _ H1 Hs'), rev_app_distr.
  rewrite lstrip_with_pad; [apply rev_involutive | | exact He].
  rewrite forallb_forall in *. intros b Hb. apply H2. now apply in_rev.
Qed.

Lemma starts_clean_join (groups : list bytes) :
  starts_clean (hd [] groups) -> starts_clean (join_lines groups).
Proof.
  destruct groups as [|g groups]; [intros []|]. cbn [hd join_lines].
  destruct groups; [trivial|]. now destruct g.
Qed.

Lemma ends_clean_join (groups : list bytes) :
  ends_clean (last groups []) -> ends_clean (join_lines groups).
Proof.
  induction groups as [|g groups IH]; [intros []|].
  destruct groups as [|g' groups]; [trivial|].
  intros H. specialize (IH H).
  change (join_lines (g :: g' :: groups))
    with (g ++ CR :: LF :: join_lines (g' :: groups)).
  unfold ends_clean in *.
  change (g ++ CR :: LF :: join_lines (g' :: groups))
    with (g ++ [CR; LF] ++ join_lines (g' :: groups)).
  rewrite !rev_app_distr.
  destruct (rev (join_lines (g' :: groups))); [destruct IH | exact IH].
Qed.

(** White space around the joined groups is dropped, and splitting gives
    the groups back. *)
Lemma frame_lines_padded (ws1 ws2 : bytes) (groups : list bytes) :
  forallb bytes_isspace ws1 = true -> forallb bytes_isspace ws2 = true ->
  Forall (fun g => ~ In CR g) groups ->
  starts_clean (hd [] groups) -> ends_clean (last groups []) ->
  frame_lines (ws1 ++ join_lines groups ++ ws2) = groups.
Proof.
  intros H1 H2 Hcr Hs He. unfold frame_lines.
  rewrite (bytes_strip_pad _ _ _ H1 H2 (starts_clean_join _ Hs)
             (ends_clean_join _ He)).
  apply bytes_split_join; [|exact Hcr]. intros ->. destruct Hs.
Qed.

(** X11: the lines of a payload are its information groups.  For groups
    without carriage return, the first starting and the last ending with a
    byte that is no white space, the white space around the payload is
    dropped and splitting gives the groups back, in order; so it is for the
    frame of the meter, where each group stands between a line feed and a
    carriage return.  A group in the middle may end with a space. *)
Theorem lines_of_meter_frame :
  forall (ws1 ws2 : bytes) (groups : list bytes),
    forallb bytes_isspace ws1 = true -> forallb bytes_isspace ws2 = true ->
    Forall (fun g => ~ In CR g) groups ->
    starts_clean (hd [] groups) -> ends_clean (last groups []) ->
    frame_lines (ws1 ++ join_lines groups ++ ws2) = groups
    /\ frame_lines (meter_frame groups) = groups.
Proof.
  intros ws1 ws2 groups H1 H2 Hcr Hs He.
  split; [now apply frame_lines_padded|].
  rewrite meter_frame_join by (intros ->; destruct Hs).
  now apply frame_lines_padded.
Qed.

Lemma lines_of_meter_frame_witness :
  let groups := [b_ "ADCO 012345678901 E"; b_ "A _  "; b_ "PAPP 00750 -"] in
  forallb bytes_isspace [LF] = true /\ forallb bytes_isspace [CR] = true
  /\ Forall (fun g => ~ In CR g) groups
  /\ starts_clean (hd [] groups) /\ ends_clean (last groups [])
  /\ frame_lines (meter_frame groups) = groups
  /\ _parse_frame (meter_frame groups)
     = Ok (TeleinfoFrame.TeleinfoFrame
             [(s_ "ADCO", b_ "012345678901"); (s_ "A", b_ "_");
              (s_ "PAPP", b_ "00750")]).
Proof.
  intros groups.
  assert (H1 : forallb bytes_isspace [LF] = true) by reflexivity.
  assert (H2 : forallb bytes_isspace [CR] = true) by reflexivity.
  assert (H3 : Forall (fun g => ~ In CR g) groups).
  { repeat constructor; intros H;
      repeat (destruct H as [H|H]; [discriminate|]); exact H. }
  assert (H4 : starts_clean (hd [] groups)) by reflexivity.
  assert (H5 : ends_clean (last groups [])) by reflexivity.
  split; [exact H1 | split; [exact H2 | split; [exact H3|]]].
  split; [exact H4 | split; [exact H5|]].
  split; [exact (proj2 (lines_of_meter_frame _ _ _ H1 H2 H3 H4 H5))|].
  reflexivity.
Defined.

Lemma no_space_not_In (s : bytes) (b : byte) :
  Forall (fun c => bytes_isspace c = false) s -> bytes_isspace b = true ->
  ~ In b s.
Proof.
  intros H Hb Hin. rewrite Forall_forall in H. specialize (H _ Hin).
  congruence.
Qed.

(** X12: the checksum byte of a line can be a space (the computed value
    ranges from 0x20).  Such a line passes the control where it stands in
    the middle of the payload, but as the last line of a frame its checksum
    is trimmed away with the white space at the end of the payload: the
    line is left with two tokens, and a frame whose earlier lines are valid
    raises the [ValueError] of the unpacking. *)
Theorem last_line_space_checksum_is_lost :
  forall (groups : list bytes) (label value : bytes),
    Forall (fun g => ~ In CR g) groups ->
    starts_clean (hd label groups) ->
    label <> [] -> value <> [] ->
    Forall (fun c => bytes_isspace c = false) label ->
    Forall (fun c => bytes_isspace c = false) value ->
    let kept := label ++ SP :: value in
    let sent := kept ++ [SP; SP] in
    let frame_data := meter_frame (groups ++ [sent]) in
    frame_lines frame_data = groups ++ [kept]
    /\ short_line kept
    /\ (Forall (line_ok frame_data) groups ->
        _parse_frame frame_data = Raise ValueError)
    /\ (line_sum sent = 0x20%N ->
        check_line frame_data sent = Ok (label, value)).
Proof.
  intros groups label value Hcr Hs Hl Hv Hln Hvn kept sent frame_data.
  assert (Hsl : ~ In SP label) by now apply (no_space_not_In _ _ Hln).
  assert (Hsv : ~ In SP value) by now apply (no_space_not_In _ _ Hvn).
  assert (Hlines : frame_lines frame_data = groups ++ [kept]).
  { unfold frame_data, sent.
    rewrite meter_frame_join by (now destruct groups).
    rewrite join_lines_snoc, <- app_assoc.
    apply frame_lines_padded; try reflexivity.
    - apply Forall_app. split; [exact Hcr|]. repeat constructor.
      unfold kept. intros Hin. apply in_app_or in Hin.
      destruct Hin as [Hin|[Hin|Hin]]; [|discriminate|].
      + now apply (no_space_not_In _ _ Hln) in Hin.
      + now apply (no_space_not_In _ _ Hvn) in Hin.
    - destruct groups as [|g groups]; [|exact Hs].
      cbn [app hd]. unfold kept. destruct label as [|b label];
        [now elim Hl|]. now inversion Hln.
    - rewrite last_last. unfold ends_clean, kept.
      rewrite rev_app_distr.
      destruct (exists_last Hv) as (v & b & ->).
      apply Forall_app in Hvn. destruct Hvn as [_ Hb].
      cbn [rev]. rewrite rev_app_distr. cbn [rev app]. now inversion Hb. }
  assert (Hshort : short_line kept).
  { unfold short_line, kept. cbn [bytes_split_n].
    rewrite (bytes_find_first _ _ _ Hsl), (bytes_find_absent _ _ _ Hsv).
    cbn [List.length]. lia. }
  split; [exact Hlines|]. split; [exact Hshort|]. split.
  - intros Hok.
    now apply (parse_frame_short_line frame_data groups [] kept).
  - intros Hsum.
    assert (Ht : bytes_split_n [SP] 2 sent = [label; value; [SP]]).
    { apply split3_iff. unfold sent, kept. rewrite <- app_assoc.
      now repeat split. }
    rewrite (check_line_three frame_data _ _ _ _ _ Ht), Hsum.
    reflexivity.
Qed.

Lemma last_line_space_checksum_is_lost_witness :
  let sent := b_ "A _" ++ [SP; SP] in
  let frame_data := meter_frame ([line_ADCO] ++ [sent]) in
  Forall (fun g => ~ In CR g) [line_ADCO]
  /\ starts_clean (hd (b_ "A") [line_ADCO])
  /\ Forall (line_ok frame_data) [line_ADCO]
  /\ line_sum sent = 0x20%N
  /\ check_line frame_data sent = Ok (b_ "A", b_ "_")
  /\ frame_lines frame_data = [line_ADCO; b_ "A _"]
  /\ _parse_frame frame_data = Raise ValueError.
Proof.
  intros sent frame_data.
  assert (H1 : Forall (fun g => ~ In CR g) [line_ADCO]).
  { repeat constructor; intros H;
      repeat (destruct H as [H|H]; [discriminate|]); exact H. }
  assert (H2 : starts_clean (hd (b_ "A") [line_ADCO])) by reflexivity.
  assert (H3 : b_ "A" <> []) by discriminate.
  assert (H4 : b_ "_" <> []) by discriminate.
  assert (H5 : Forall (fun c => bytes_isspace c = false) (b_ "A"))
    by (repeat constructor).
  assert (H6 : Forall (fun c => bytes_isspace c = false) (b_ "_"))
    by (repeat constructor).
  assert (H7 : Forall (line_ok frame_data) [line_ADCO]).
  { repeat constructor. eexists. reflexivity. }
  assert (H8 : line_sum sent = 0x20%N) by reflexivity.
  destruct (last_line_space_checksum_is_lost [line_ADCO] _ _
              H1 H2 H3 H4 H5 H6) as (Hlines & _ & Hraise & Hcheck).
  exact (conj H1 (conj H2 (conj H7 (conj H8
           (conj (Hcheck H8) (conj Hlines (Hraise H7))))))).
Defined.

End Framing.

(** ** The reading loop over a stream of frames *)

Section LoopOverFrames.
Import TeleinfoReader Teleinflux.
Variable sp : N -> bool.
Variable dec : N -> option N.
Variable lim : option nat.
Variable write_points : nat -> list measurement_data -> write_outcome.
Variable _influx_write_attemps : Z.
Variable utc_time : nat -> str.

Local Abbreviation run_turn_ :=
  (run_turn sp dec lim write_points _influx_write_attemps utc_time).
Local Abbreviation run_ :=
  (run sp dec lim write_points _influx_write_attemps utc_time).
Local Abbreviation run_from rd n k :=
  (run_loop sp dec lim write_points _influx_write_attemps utc_time
            (S (List.length rd%list)) rd%list n k).

(** A frame the loop gets over, with a client that raises nothing but
    [InfluxDBServerError]: its fields are handed over, if it has any, and
    the loop goes on with the rest. *)
Lemma run_passing_frame (noise payload rest : bytes) (n k : nat) :
  raises_server_errors_only write_points ->
  Forall not_start noise -> Forall not_end payload ->
  passes sp dec lim payload ->
  exists n' k',
    run_from (framed noise payload ++ rest) n k
    = (written_for sp dec lim payload ++ fst (run_from rest n' k'),
       snd (run_from rest n' k')).
Proof.
  intros Hc Hn Hp Hpass.
  rewrite run_loop_unfold, (run_turn_framed _ _ _ _ _ _ _ _ _ _ _ Hn Hp).
  unfold passes, written_for in *.
  destruct (_parse_frame payload) as [frame|e].
  - destruct Hpass as [fields ->].
    destruct (write_measurement_returns write_points _influx_write_attemps
                k (s_ "teleinfo") (utc_time n) fields None Hc)
      as (ok & k' & ->).
    exists (S n), k'. now destruct (run_from rest (S n) k').
  - rewrite Hpass. exists n, k. now destruct (run_from rest n k).
Qed.

Lemma run_passing_frames (frames : list (bytes * bytes)) (rest : bytes)
  (ws : list (dict TeleinfoFrame.field)) (e : option ending) :
  raises_server_errors_only write_points ->
  Forall (fun f => well_framed f /\ passes sp dec lim (snd f)) frames ->
  (forall n k, run_from rest n k = (ws, e)) ->
  forall n k,
    run_from (frames_stream frames ++ rest) n k
    = (flat_map (fun f => written_for sp dec lim (snd f)) frames ++ ws, e).
Proof.
  intros Hc Hf Hrest.
  induction Hf as [|[noise payload] frames [[Hn Hp] Hpass] _ IH];
    intros n k.
  - unfold frames_stream. cbn [flat_map app]. apply Hrest.
  - unfold frames_stream in *. cbn [flat_map fst snd] in *.
    rewrite <- !app_assoc.
    destruct (run_passing_frame noise payload
                (flat_map (fun f => framed (fst f) (snd f)) frames ++ rest)
                n k Hc Hn Hp Hpass) as (n' & k' & ->).
    now rewrite IH.
Qed.

(** Frames that fail the control are skipped, whatever the client does. *)
Lemma run_skipped_frames (frames : list (bytes * bytes)) (rest : bytes)
  (n k : nat) :
  Forall (fun f => well_framed f /\ fails_control (snd f)) frames ->
  run_from (frames_stream frames ++ rest) n k = run_from rest n k.
Proof.
  induction 1 as [|[noise payload] frames [[Hn Hp] (e & He & Hex)] _ IH].
  - reflexivity.
  - unfold frames_stream in *. cbn [flat_map fst snd] in *.
    rewrite <- !app_assoc, run_loop_unfold,
      (run_turn_framed _ _ _ _ _ _ _ _ _ _ _ Hn Hp), He, Hex.
    exact IH.
Qed.

(** X13: with a client that raises nothing but [InfluxDBServerError], over
    a stream of frames that each parse and format, or fail the checksum
    control, followed by bytes without a complete frame, [run] hands to
    [_write_measurement] the fields of every frame that parses, in the
    order of the stream, skips the others, and ends at ['Done']; so it
    does when writes fail. *)
Theorem run_writes_every_valid_frame :
  forall (frames : list (bytes * bytes)) (tail : bytes),
    raises_server_errors_only write_points ->
    Forall (fun f => well_framed f /\ passes sp dec lim (snd f)) frames ->
    fst (read_frame tail) = Ok None ->
    run_ (frames_stream frames ++ tail)
    = (flat_map (fun f => written_for sp dec lim (snd f)) frames, Some Done).
Proof.
  intros frames tail Hc Hf Ht. unfold Teleinflux.run.
  rewrite (run_passing_frames frames tail [] (Some Done) Hc Hf);
    [now rewrite app_nil_r|].
  intros n k. rewrite run_loop_unfold. unfold Teleinflux.run_turn.
  destruct (read_frame tail) as [r rd']. cbn [fst] in Ht. now subst r.
Qed.

(** X14: with a client that raises nothing but [InfluxDBServerError], the
    first frame whose parsing raises anything but a [TeleinfoException], or
    whose fields do not format, ends [run] with that exception: the fields
    of the frames before it were handed over, and nothing after it is
    read. *)
Theorem run_stops_at_first_escaping_frame :
  forall (frames : list (bytes * bytes)) (noise payload rest : bytes)
         (e : exn),
    raises_server_errors_only write_points ->
    Forall (fun f => well_framed f /\ passes sp dec lim (snd f)) frames ->
    Forall not_start noise -> Forall not_end payload ->
    stops_with sp dec lim payload e ->
    run_ (frames_stream frames ++ framed noise payload ++ rest)
    = (flat_map (fun f => written_for sp dec lim (snd f)) frames,
       Some (Uncaught e)).
Proof.
  intros frames noise payload rest e Hc Hf Hn Hp He. unfold Teleinflux.run.
  rewrite (run_passing_frames frames (framed noise payload ++ rest) []
             (Some (Uncaught e)) Hc Hf);
    [now rewrite app_nil_r|].
  intros n k.
  rewrite run_loop_unfold, (run_turn_framed _ _ _ _ _ _ _ _ _ _ _ Hn Hp).
  unfold stops_with in He.
  destruct (_parse_frame payload) as [frame|e'].
  - now rewrite He.
  - destruct He as [-> He]. now rewrite He.
Qed.

(** X16: an exception of the client other than [InfluxDBServerError]
    leaves [run].  When the first measurement, after frames that failed the
    control, meets such an exception at one of its attempts, the attempts
    before having been retried, [run] ends with it: the fields were handed
    over once, and no frame after that one is read. *)
Theorem client_exception_ends_run :
  forall (frames : list (bytes * bytes)) (noise payload rest : bytes)
         (frame : TeleinfoFrame.t) (fields : dict TeleinfoFrame.field)
         (i : nat),
    Forall (fun f => well_framed f /\ fails_control (snd f)) frames ->
    Forall not_start noise -> Forall not_end payload ->
    _parse_frame payload = Ok frame ->
    TeleinfoFrame.format_fields sp dec lim frame = Ok fields ->
    let point := MeasurementData (s_ "teleinfo") (utc_time 0) fields None in
    (Z.of_nat i < _influx_write_attemps)%Z ->
    (forall j, j < i -> retried (write_points j [point])) ->
    write_points i [point] = OtherError ->
    run_ (frames_stream frames ++ framed noise payload ++ rest)
    = ([fields], Some ClientError).
Proof.
  intros frames noise payload rest frame fields i Hf Hn Hp Hparse Hformat
    point Hi Hj Ho.
  unfold Teleinflux.run.
  rewrite (run_skipped_frames frames _ 0 0 Hf), run_loop_unfold,
    (run_turn_framed _ _ _ _ _ _ _ _ _ _ _ Hn Hp), Hparse, Hformat.
  unfold _write_measurement.
  rewrite (attempts_loop_propagates write_points
             (Z.to_nat _influx_write_attemps) 0 i (s_ "teleinfo")
             (utc_time 0) fields None);
    [reflexivity | lia | exact Hj | exact Ho].
Qed.

End LoopOverFrames.

Lemma run_writes_every_valid_frame_witness :
  let fields1 :=
    [(s_ "ADCO", TeleinfoFrame.FStr (s_ "012345678901"));
     (s_ "HCHC", TeleinfoFrame.FInt 1234567)] in
  let fields3 := [(s_ "PAPP", TeleinfoFrame.FInt 750)] in
  let frames :=
    [([x41], scenario_payload); ([], b_ "ADCO 012345678901 F");
     ([CR; x03], b_ "PAPP 00750 -")] in
  let tail := [x42; x02; x41] in
  let write_points :=
    fun (k : nat) (_ : list measurement_data) =>
      if Nat.even k then ServerError else Wrote false in
  let utc_time := fun _ : nat => s_ "2020-01-01T00:00:00" in
  raises_server_errors_only write_points
  /\ Forall (fun f => well_framed f
                      /\ passes unicode14_isspace unicode14_todecimal
                           default_max_str_digits (snd f)) frames
  /\ fst (TeleinfoReader.read_frame tail) = Ok None
  /\ Teleinflux.run unicode14_isspace unicode14_todecimal
       default_max_str_digits write_points 3 utc_time
       (frames_stream frames ++ tail)
     = ([fields1; fields3], Some Teleinflux.Done).
Proof.
  intros fields1 fields3 frames tail write_points utc_time.
  assert (H0 : raises_server_errors_only write_points).
  { intros k points. unfold write_points.
    destruct (Nat.even k); discriminate. }
  assert (H1 : Forall (fun f => well_framed f
                         /\ passes unicode14_isspace unicode14_todecimal
                              default_max_str_digits (snd f)) frames).
  { repeat constructor; try discriminate.
    - vm_compute. eexists. reflexivity.
    - vm_compute. eexists. reflexivity. }
  assert (H2 : fst (TeleinfoReader.read_frame tail) = Ok None)
    by reflexivity.
  exact (conj H0 (conj H1 (conj H2
           (run_writes_every_valid_frame unicode14_isspace
              unicode14_todecimal default_max_str_digits write_points 3
              utc_time frames tail H0 H1 H2)))).
Defined.

Lemma run_stops_at_first_escaping_frame_witness :
  let fields1 :=
    [(s_ "ADCO", TeleinfoFrame.FStr (s_ "012345678901"));
     (s_ "HCHC", TeleinfoFrame.FInt 1234567)] in
  let frames := [([x41], scenario_payload)] in
  let payload := b_ "PAPP 0075x 5" in
  let rest := framed [] scenario_payload in
  let write_points :=
    fun (_ : nat) (_ : list measurement_data) => Wrote true in
  let utc_time := fun _ : nat => s_ "2020-01-01T00:00:00" in
  raises_server_errors_only write_points
  /\ Forall (fun f => well_framed f
                      /\ passes unicode14_isspace unicode14_todecimal
                           default_max_str_digits (snd f)) frames
  /\ Forall not_end payload
  /\ TeleinfoReader._parse_frame payload
     = Ok (TeleinfoFrame.TeleinfoFrame [(s_ "PAPP", b_ "0075x")])
  /\ stops_with unicode14_isspace unicode14_todecimal
       default_max_str_digits payload ValueError
  /\ Teleinflux.run unicode14_isspace unicode14_todecimal
       default_max_str_digits write_points 3 utc_time
       (frames_stream frames ++ framed [] payload ++ rest)
     = ([fields1], Some (Teleinflux.Uncaught ValueError)).
Proof.
  intros fields1 frames payload rest write_points utc_time.
  assert (H0 : raises_server_errors_only write_points)
    by (intros k points; discriminate).
  assert (H1 : Forall (fun f => well_framed f
                         /\ passes unicode14_isspace unicode14_todecimal
                              default_max_str_digits (snd f)) frames).
  { repeat constructor; try discriminate. vm_compute. eexists. reflexivity. }
  assert (H2 : Forall not_start []) by constructor.
  assert (H3 : Forall not_end payload)
    by (repeat constructor; discriminate).
  assert (H4 : stops_with unicode14_isspace unicode14_todecimal
                 default_max_str_digits payload ValueError) by reflexivity.
  split; [exact H0 | split; [exact H1 | split; [exact H3|]]].
  split; [reflexivity | split; [exact H4|]].
  exact (run_stops_at_first_escaping_frame unicode14_isspace
           unicode14_todecimal default_max_str_digits write_points 3
           utc_time frames [] payload rest ValueError H0 H1 H2 H3 H4).
Defined.

Lemma client_exception_ends_run_witness :
  let fields :=
    [(s_ "ADCO", TeleinfoFrame.FStr (s_ "012345678901"));
     (s_ "HCHC", TeleinfoFrame.FInt 1234567)] in
  let frame :=
    TeleinfoFrame.TeleinfoFrame
      [(s_ "ADCO", b_ "012345678901"); (s_ "HCHC", b_ "001234567")] in
  let frames := [([x41], b_ "ADCO 012345678901 F")] in
  let rest := framed [] (b_ "PAPP 00750 -") in
  let write_points :=
    fun (k : nat) (_ : list measurement_data) =>
      match k with
      | 0 => ServerError
      | 1 => OtherError
      | _ => Wrote true
      end in
  let utc_time := fun _ : nat => s_ "2020-01-01T00:00:00" in
  Forall (fun f => well_framed f /\ fails_control (snd f)) frames
  /\ Forall not_end scenario_payload
  /\ TeleinfoReader._parse_frame scenario_payload = Ok frame
  /\ TeleinfoFrame.format_fields unicode14_isspace unicode14_todecimal
       default_max_str_digits frame = Ok fields
  /\ (1 < 3)%Z
  /\ Teleinflux.run unicode14_isspace unicode14_todecimal
       default_max_str_digits write_points 3 utc_time
       (frames_stream frames ++ framed [] scenario_payload ++ rest)
     = ([fields], Some Teleinflux.ClientError).
Proof.
  intros fields frame frames rest write_points utc_time.
  assert (H1 : Forall (fun f => well_framed f /\ fails_control (snd f))
                 frames).
  { repeat constructor; try discriminate.
    eexists. split; [vm_compute; reflexivity | reflexivity]. }
  assert (H2 : Forall not_start []) by constructor.
  assert (H3 : Forall not_end scenario_payload)
    by (repeat constructor; discriminate).
  assert (H4 : TeleinfoReader._parse_frame scenario_payload = Ok frame)
    by reflexivity.
  assert (H5 : TeleinfoFrame.format_fields unicode14_isspace
                 unicode14_todecimal default_max_str_digits frame
               = Ok fields) by (vm_compute; reflexivity).
  assert (H6 : (Z.of_nat 1 < 3)%Z) by lia.
  assert (H7 : forall j, j < 1 ->
                 retried (write_points j
                            [MeasurementData (s_ "teleinfo") (utc_time 0)
                               fields None])).
  { intros j Hj. replace j with 0 by lia. now right. }
  split; [exact H1 | split; [exact H3 | split; [exact H4|]]].
  split; [exact H5 | split; [exact H6|]].
  exact (client_exception_ends_run unicode14_isspace unicode14_todecimal
           default_max_str_digits write_points 3 utc_time frames []
           scenario_payload rest frame fields 1 H1 H2 H3 H4 H5 H6 H7
           eq_refl).
Defined.

(** ** [_write_measurement] *)

Section WriteFacts.
Variable write_points : nat -> list measurement_data -> write_outcome.
Variable measurement_name utc_time : str.
Variable fields : dict TeleinfoFrame.field.
Variable tags : option (dict TeleinfoFrame.field).

Local Abbreviation data :=
  (build_measurement measurement_name utc_time fields tags).
Local Abbreviation loop_ :=
  (fun remaining k =>
     attempts_loop write_points remaining k measurement_name utc_time
                   fields tags).

(** The attempts are made in turn, each with the same points, up to the
    first one that is not retried. *)
Lemma attempts_loop_cases (remaining k : nat) :
  (exists i,
      i < remaining
      /\ (forall j, j < i -> retried (write_points (k + j) [data]))
      /\ ((write_points (k + i) [data] = Wrote true
           /\ loop_ remaining k = (Returned true, S (k + i)))
          \/ (write_points (k + i) [data] = OtherError
              /\ loop_ remaining k = (Propagated, S (k + i)))))
  \/ ((forall j, j < remaining -> retried (write_points (k + j) [data]))
      /\ loop_ remaining k = (Returned false, k + remaining)).
Proof.
  revert k. induction remaining as [|remaining IH]; intros k.
  - right. split; [intros j Hj; lia | now rewrite Nat.add_0_r].
  - cbn [attempts_loop].
    assert (Hretry : retried (write_points k [data]) ->
              forall j i, j < S i ->
                (forall j', j' < i ->
                   retried (write_points (S k + j') [data])) ->
                retried (write_points (k + j) [data])).
    { intros H0 j i Hj Hi. destruct j as [|j];
        [now rewrite Nat.add_0_r|].
      rewrite Nat.add_succ_r. apply (Hi j). lia. }
    destruct (write_points k [data]) as [[|]| |] eqn:E.
    + left. exists 0. rewrite Nat.add_0_r.
      split; [lia|]. split; [intros j Hj; lia|]. now left.
    + destruct (IH (S k)) as [(i & Hi & Hj & Hres)|[Hall Hres]].
      * left. exists (S i). rewrite Nat.add_succ_r. split; [lia|].
        split; [|exact Hres].
        intros j Hlt. apply (Hretry (or_introl eq_refl) j i Hlt Hj).
      * right. rewrite Nat.add_succ_r. split; [|exact Hres].
        intros j Hlt.
        apply (Hretry (or_introl eq_refl) j remaining Hlt Hall).
    + destruct (IH (S k)) as [(i & Hi & Hj & Hres)|[Hall Hres]].
      * left. exists (S i). rewrite Nat.add_succ_r. split; [lia|].
        split; [|exact Hres].
        intros j Hlt. apply (Hretry (or_intror eq_refl) j i Hlt Hj).
      * right. rewrite Nat.add_succ_r. split; [|exact Hres].
        intros j Hlt.
        apply (Hretry (or_intror eq_refl) j remaining Hlt Hall).
    + left. exists 0. rewrite Nat.add_0_r.
      split; [lia|]. split; [intros j Hj; lia|]. now right.
Qed.

(** X15: [_write_measurement] calls [write_points] with the same single
    point, one attempt after the other, as long as the call returns a false
    value or raises [InfluxDBServerError], and at most
    [_influx_write_attemps] times.  It returns [True] at the first call that
    returns a true value, lets any other exception of that call out, and
    returns [False] once all attempts were retried; with a number of
    attempts of zero or less it returns [False] without any call.  Tags that
    are [None] or empty are not part of the point. *)
Theorem write_measurement_attempts :
  forall (attempts : Z) (k : nat),
    let result :=
      _write_measurement write_points attempts k measurement_name utc_time
                         fields tags in
    ((exists i,
         i < Z.to_nat attempts
         /\ (forall j, j < i -> retried (write_points (k + j) [data]))
         /\ ((write_points (k + i) [data] = Wrote true
              /\ result = (Returned true, S (k + i)))
             \/ (write_points (k + i) [data] = OtherError
                 /\ result = (Propagated, S (k + i)))))
     \/ ((forall j, j < Z.to_nat attempts ->
            retried (write_points (k + j) [data]))
         /\ result = (Returned false, k + Z.to_nat attempts)))
    /\ k <= snd result <= k + Z.to_nat attempts
    /\ ((attempts <= 0)%Z -> result = (Returned false, k))
    /\ (tags = None \/ tags = Some [] ->
        data = MeasurementData measurement_name utc_time fields None)
    /\ (forall t ts, tags = Some (t :: ts) ->
        data = MeasurementData measurement_name utc_time fields tags).
Proof.
  intros attempts k result. unfold result, _write_measurement.
  pose proof (attempts_loop_cases (Z.to_nat attempts) k) as Hc.
  cbv beta in Hc.
  split; [exact Hc|]. split; [|split; [|split]].
  - destruct Hc as [(i & Hi & _ & [[_ ->]|[_ ->]])|[_ ->]]; cbn [snd]; lia.
  - intros Hle. replace (Z.to_nat attempts) with 0 by lia. reflexivity.
  - intros [->| ->]; reflexivity.
  - intros t ts ->. reflexivity.
Qed.

End WriteFacts.

(** ** The order of the fields *)

Section FieldOrder.
Import TeleinfoReader.

Lemma existsb_str_eqb (k : str) (l : list str) :
  existsb (str_eqb k) l = true <-> In k l.
Proof.
  rewrite existsb_exists. split.
  - intros (x & Hx & E). apply str_eqb_eq in E. now subst.
  - intros H. exists k. split; [exact H | apply str_eqb_refl].
Qed.

Lemma first_occurrences_ext (seen seen' keys : list str) :
  (forall k, In k seen <-> In k seen') ->
  first_occurrences seen keys = first_occurrences seen' keys.
Proof.
  revert seen seen'. induction keys as [|k keys IH]; intros seen seen' H;
    [reflexivity|].
  cbn [first_occurrences].
  assert (E : existsb (str_eqb k) seen = existsb (str_eqb k) seen').
  { apply eq_true_iff_eq. rewrite !existsb_str_eqb. apply H. }
  rewrite E. destruct (existsb (str_eqb k) seen').
  - now apply IH.
  - f_equal. apply IH. intros x. cbn [In]. now rewrite H.
Qed.

Lemma parse_lines_keys (frame_data : bytes) (lines : list bytes)
  (d d' : dict bytes) :
  parse_lines frame_data lines d = Ok d' ->
  dict_keys d'
  = dict_keys d ++ first_occurrences (dict_keys d) (line_keys lines).
Proof.
  revert d. induction lines as [|line lines IH]; intros d;
    cbn [parse_lines].
  - intros [= <-]. cbn. now rewrite app_nil_r.
  - destruct (parse_line frame_data line) as [[k v]|e] eqn:E;
      [|discriminate].
    cbn [bind fst snd]. intros H. rewrite (IH _ H).
    unfold line_keys. cbn [flat_map].
    rewrite (parse_line_binding _ _ _ E). cbn [app first_occurrences].
    fold (line_keys lines). rewrite dict_keys_set.
    destruct (dict_get d k) as [v0|] eqn:Eg.
    + assert (Hin : existsb (str_eqb k) (dict_keys d) = true).
      { apply existsb_str_eqb.
        destruct (in_dec (list_eq_dec N.eq_dec) k (dict_keys d)) as [Hi|Hi];
          [exact Hi|]. apply dict_get_None_keys in Hi. congruence. }
      now rewrite Hin.
    + assert (Hin : existsb (str_eqb k) (dict_keys d) = false).
      { apply not_true_is_false. rewrite existsb_str_eqb.
        now apply dict_get_None_keys. }
      rewrite Hin, <- app_assoc. cbn [app]. do 2 f_equal.
      apply first_occurrences_ext. intros x. rewrite in_app_iff.
      cbn [In]. tauto.
Qed.

(** X1: the fields of a parsed record stand in the order in which their
    labels first occur in the payload: a label that comes again changes the
    value of its field and not its place. *)
Theorem record_keeps_first_occurrence_order :
  forall (frame_data : bytes) (frame : TeleinfoFrame.t),
    _parse_frame frame_data = Ok frame ->
    dict_keys (TeleinfoFrame._raw_data frame)
    = first_occurrences [] (line_keys (frame_lines frame_data))
    /\ NoDup (dict_keys (TeleinfoFrame._raw_data frame))
    /\ List.length (TeleinfoFrame._raw_data frame)
       <= List.length (frame_lines frame_data).
Proof.
  intros frame_data frame. unfold _parse_frame.
  destruct (parse_lines frame_data (frame_lines frame_data) []) as [d|e]
    eqn:E; [|discriminate].
  cbn [bind]. intros [= <-]. cbn [TeleinfoFrame._raw_data].
  split; [exact (parse_lines_keys _ _ _ _ E)|]. split.
  - apply (parse_lines_NoDup _ _ _ _ E). constructor.
  - rewrite <- (length_map fst d). fold (dict_keys d).
    rewrite (parse_lines_keys _ _ _ _ E). cbn [dict_keys map app].
    clear E. generalize (@nil str).
    induction (frame_lines frame_data) as [|line lines IH]; intros seen;
      [cbn; lia|].
    unfold line_keys. cbn [flat_map]. fold (line_keys lines).
    destruct (line_binding line) as [[k v]|]; cbn [app first_occurrences].
    + destruct (existsb (str_eqb k) seen); cbn [List.length];
        [specialize (IH seen) | specialize (IH (k :: seen))]; lia.
    + specialize (IH seen). cbn [List.length]. lia.
Qed.

Lemma record_keeps_first_occurrence_order_witness :
  let frame_data :=
    b_ "PAPP 00750 -" ++ [CR; LF] ++ line_ADCO ++ [CR; LF]
    ++ b_ "PAPP 00760 ." in
  let frame :=
    TeleinfoFrame.TeleinfoFrame
      [(s_ "PAPP", b_ "00760"); (s_ "ADCO", b_ "012345678901")] in
  _parse_frame frame_data = Ok frame
  /\ line_keys (frame_lines frame_data) = [s_ "PAPP"; s_ "ADCO"; s_ "PAPP"]
  /\ dict_keys (TeleinfoFrame._raw_data frame)
     = first_occurrences [] (line_keys (frame_lines frame_data)).
Proof.
  intros frame_data frame.
  assert (H : _parse_frame frame_data = Ok frame) by reflexivity.
  split; [exact H | split; [reflexivity|]].
  exact (proj1 (record_keeps_first_occurrence_order frame_data frame H)).
Defined.

End FieldOrder.
